(** * amp-base-carousel/0.1/dimensions.js and amp-facebook/0.1/amp-facebook.js

    A shallow embedding of the two modules and the properties stated about
    them.

    Numbers.  Pixel coordinates, scroll offsets and deltas are JavaScript
    numbers: IEEE 754 binary64.  They are embedded as Rocq's primitive
    [float], so [(start + end) / 2] below is the very operation the browser
    performs, NaN and infinities included.  Array indices and lengths are
    JavaScript numbers too, but they only take integer values far below
    2^53, where binary64 arithmetic is exact; they are embedded as [Z]. *)

From Stdlib Require Import Floats ZArith Lia.
From stdpp Require Import base option list strings gmap.

Local Open Scope Z_scope.
Set Warnings "-register-all".

(** ** JavaScript values and control flow *)

Module Js.

(** The values a message event can carry in [data], and the values read out
    of them.  An object is its own properties in order, each key once. *)
Inductive JsValue :=
| JUndefined
| JNull
| JBool (b : bool)
| JNumber (n : float)
| JString (s : string)
| JArray (items : list JsValue)
| JObject (props : list (string * JsValue)).

Inductive JsError :=
| TypeError
| UserError (was : JsValue).

(** A call either returns or throws. *)
Inductive completion (A : Type) :=
| Normal (a : A)
| Throw (e : JsError).
Arguments Normal {A} a.
Arguments Throw {A} e.

#[global] Instance completion_ret : MRet completion := @Normal.
#[global] Instance completion_fmap : FMap completion :=
  fun A B (f : A -> B) (c : completion A) =>
    match c with
    | Normal a => Normal (f a)
    | Throw e => Throw e
    end.
#[global] Instance completion_bind : MBind completion :=
  fun A B (k : A -> completion B) (c : completion A) =>
    match c with
    | Normal a => k a
    | Throw e => Throw e
    end.

(** [ToBoolean]: what [!v] and [if (v)] look at. *)
Definition ToBoolean (v : JsValue) : bool :=
  match v with
  | JUndefined | JNull => false
  | JBool b => b
  | JNumber n => negb (n =? 0)%float && (n =? n)%float
  | JString s => negb (bool_decide (s = ""))
  | JArray _ | JObject _ => true
  end.

Fixpoint lookupProp (props : list (string * JsValue)) (key : string)
  : JsValue :=
  match props with
  | [] => JUndefined
  | (k, v) :: rest => if bool_decide (k = key) then v else lookupProp rest key
  end.

(** [v[key]] for the two keys this file reads, ['action'] and ['height']:
    an own property of an object, [undefined] on a string, number, boolean
    or array (neither these nor their prototypes define such a property),
    and a TypeError on [null] and [undefined]. *)
Definition getProp (v : JsValue) (key : string) : completion JsValue :=
  match v with
  | JUndefined | JNull => Throw TypeError
  | JObject props => Normal (lookupProp props key)
  | _ => Normal JUndefined
  end.

Section Values.

(** [Number::toString], a built-in of the language. *)
Variable numberToString : float -> string.

(** [ToString]; an array joins its items with commas, [null] and
    [undefined] items giving the empty string. *)
Fixpoint ToString (v : JsValue) : string :=
  match v with
  | JUndefined => "undefined"
  | JNull => "null"
  | JBool true => "true"
  | JBool false => "false"
  | JNumber n => numberToString n
  | JString s => s
  | JArray items =>
      (fix join (l : list JsValue) : string :=
         match l with
         | [] => ""
         | x :: rest =>
             let item := match x with
                         | JUndefined | JNull => ""
                         | _ => ToString x
                         end in
             match rest with
             | [] => item
             | _ :: _ => item +:+ "," +:+ join rest
             end
         end) items
  | JObject _ => "[object Object]"
  end.

(** [v == s] for a string literal [s] that is not numeric (here ['ready']):
    a string compares by content, an array or object through its
    [ToString]; [null], [undefined], numbers and booleans never equal it
    (the literal converts to NaN). *)
Definition looseEqualsString (v : JsValue) (s : string) : bool :=
  match v with
  | JString s' => bool_decide (s' = s)
  | JArray _ | JObject _ => bool_decide (ToString v = s)
  | _ => false
  end.

End Values.

(** [v === s] for a string [s]. *)
Definition strictEqualsString (v : JsValue) (s : string) : bool :=
  match v with
  | JString s' => bool_decide (s' = s)
  | _ => false
  end.

(** [Array.prototype.indexOf] on an array of strings. *)
Fixpoint indexOfFrom (l : list string) (v : JsValue) (i : Z) : Z :=
  match l with
  | [] => -1
  | s :: rest => if strictEqualsString v s then i else indexOfFrom rest v (i + 1)
  end.
Definition indexOf (l : list string) (v : JsValue) : Z := indexOfFrom l v 0.

End Js.

(** ** extensions/amp-base-carousel/0.1/dimensions.js *)

Module Dimensions.
Import Js.

(** [Axis = {X: 0, Y: 1}] and [Alignment = {START: 'start', CENTER: 'center'}];
    the parameters are annotated [!Axis] and [!Alignment]. *)
Inductive Axis := X | Y.
Inductive Alignment := START | CENTER.

#[global] Instance Axis_eq_dec : EqDecision Axis.
Proof. solve_decision. Defined.
#[global] Instance Alignment_eq_dec : EqDecision Alignment.
Proof. solve_decision. Defined.

(** What [el.getBoundingClientRect()] returns; the six fields that
    [getDimension] destructures. *)
Record DOMRect := mkRect {
  left : float; right : float; width : float;
  top : float; bottom : float; height : float
}.

(** The part of an [Element] that this file reads or writes directly; its
    inline style is only reached through the imported style helpers. *)
Record Element := mkElement {
  boundingClientRect : DOMRect;
  scrollLeft : float;
  scrollTop : float
}.

Definition getBoundingClientRect (el : Element) : DOMRect :=
  boundingClientRect el.

(** [DimensionDef]; [end] and [length] are taken in Rocq. *)
Record DimensionDef := mkDimension {
  start : float; end_ : float; length_ : float
}.

Definition getDimension (axis : Axis) (el : Element) : DimensionDef :=
  let r := getBoundingClientRect el in
  {| start := if bool_decide (axis = X) then left r else top r;
     end_ := if bool_decide (axis = X) then right r else bottom r;
     length_ := if bool_decide (axis = X) then width r else height r |}.

Definition getCenter (axis : Axis) (el : Element) : float :=
  let d := getDimension axis el in
  ((start d + end_ d) / 2)%float.

Definition getStart (axis : Axis) (el : Element) : float :=
  start (getDimension axis el).

Definition getPosition (axis : Axis) (alignment : Alignment) (el : Element)
  : float :=
  if bool_decide (alignment = START) then getStart axis el
  else getCenter axis el.

Definition overlaps (axis : Axis) (el : Element) (position : float) : bool :=
  let d := getDimension axis el in
  (start d <=? position)%float && (position <? end_ d)%float.

Definition getPercentageOffsetFromAlignment
    (axis : Axis) (alignment : Alignment) (container el : Element) : float :=
  let elPos := getPosition axis alignment el in
  let containerPos := getPosition axis alignment container in
  let elLength := length_ (getDimension axis el) in
  ((elPos - containerPos) / elLength)%float.

Definition getScrollPosition (axis : Axis) (el : Element) : float :=
  if bool_decide (axis = X) then scrollLeft el else scrollTop el.

(** [el.scrollLeft = position] is modelled as the plain field assignment the
    source writes; a browser may clamp the stored value afterwards. *)
Definition setScrollPosition (axis : Axis) (el : Element) (position : float)
  : Element :=
  if bool_decide (axis = X)
  then {| boundingClientRect := boundingClientRect el;
          scrollLeft := position;
          scrollTop := scrollTop el |}
  else {| boundingClientRect := boundingClientRect el;
          scrollLeft := scrollLeft el;
          scrollTop := position |}.

Definition updateScrollPosition (axis : Axis) (el : Element) (delta : float)
  : Element :=
  setScrollPosition axis el (getScrollPosition axis el + delta)%float.

(** [offset = 0] is a default parameter: [None] is the omitted argument.
    Only [container] is written, and after every read. *)
Definition scrollContainerToElement
    (axis : Axis) (alignment : Alignment) (container el : Element)
    (offset : option float) : Element :=
  let offset := default 0%float offset in
  let startAligned := bool_decide (alignment = START) in
  let length := length_ (getDimension axis el) in
  let snapOffset := if startAligned then getStart axis el
                    else getCenter axis el in
  let scrollOffset := if startAligned then getStart axis container
                      else getCenter axis container in
  let delta := (snapOffset - scrollOffset - offset * length)%float in
  updateScrollPosition axis container delta.

(** [children[i]]: [undefined] outside the array. *)
Definition nthChild (children : list Element) (i : Z) : option Element :=
  if i <? 0 then None else children !! Z.to_nat i.

(** [overlaps(axis, children[i], pos)]; [getDimension] throws a TypeError
    on [undefined]. *)
Definition overlapsAt (axis : Axis) (children : list Element) (i : Z)
    (pos : float) : completion bool :=
  match nthChild children i with
  | Some el => Normal (overlaps axis el pos)
  | None => Throw TypeError
  end.

Section Imported.

(** [Number::toString], a built-in of the language. *)
Variable numberToString : float -> string.

(** [setStyle] and [setImportantStyles] are imported from
    [src/core/dom/style], and [mod] from [src/core/math]; none of the three
    is among the sources, so they are parameters here ([mod] is a reserved
    word, hence [mod_]). *)
Variable setStyle : Element -> string -> string -> Element.
Variable setImportantStyles : Element -> list (string * string) -> Element.
Variable mod_ : Z -> Z -> Z.

Definition px (n : float) : string := numberToString n +:+ "px".

Definition updateLengthStyle (axis : Axis) (el : Element) (length : float)
  : Element :=
  if bool_decide (axis = X) then setStyle el "width" (px length)
  else setStyle el "height" (px length).

(** The template literal [translate(${deltaX}px, ${deltaY}px)]. *)
Definition translate (deltaX deltaY : float) : string :=
  "translate(" +:+ numberToString deltaX +:+ "px, "
               +:+ numberToString deltaY +:+ "px)".

Definition setTransformTranslateStyle (axis : Axis) (el : Element)
    (delta : float) : Element :=
  let deltaX := if bool_decide (axis = X) then delta else 0%float in
  let deltaY := if bool_decide (axis = X) then 0%float else delta in
  let el := setStyle el "transform" (translate deltaX deltaY) in
  setImportantStyles el [("--content-transform", translate deltaX deltaY)].

(** The [for] loop of [findOverlappingIndex], entered at [i] with
    [remaining] iterations to go; falling off its end is [undefined]. *)
Fixpoint findOverlappingLoop (axis : Axis) (children : list Element)
    (startIndex : Z) (pos : float) (remaining : nat) (i : Z)
  : completion (option Z) :=
  match remaining with
  | O => Normal None
  | S remaining' =>
      let nextIndex := mod_ (startIndex + i) (Z.of_nat (length children)) in
      let prevIndex := mod_ (startIndex - i) (Z.of_nat (length children)) in
      hitNext ← overlapsAt axis children nextIndex pos;
      if hitNext : bool then Normal (Some nextIndex) else
      hitPrev ← overlapsAt axis children prevIndex pos;
      if hitPrev : bool then Normal (Some prevIndex) else
      findOverlappingLoop axis children startIndex pos remaining' (i + 1)
  end.

(** [i] runs from 1 while [i <= children.length / 2], that is through
    1 .. floor(length / 2): that many iterations. *)
Definition findOverlappingIndex (axis : Axis) (alignment : Alignment)
    (container : Element) (children : list Element) (startIndex : Z)
  : completion (option Z) :=
  let pos := getPosition axis alignment container in
  hit ← overlapsAt axis children startIndex pos;
  if hit : bool then Normal (Some startIndex) else
  findOverlappingLoop axis children startIndex pos
    (Z.to_nat (Z.of_nat (length children) / 2)) 1.

End Imported.

(** Modelled from the spec: [mod] of [src/core/math] is not among the
    sources.  This is the remainder into [0, b) that indexing a circular
    list needs, written with JavaScript's truncating [%]; it instantiates
    the parameter [mod_] where a concrete run is evaluated. *)
Definition mod_js (a b : Z) : Z :=
  if (0 <? a) && (0 <? b) then Z.rem a b else Z.rem (Z.rem a b + b) b.

(** *** Vocabulary of the statements *)

(** The element with the roles of the two axes exchanged. *)
Definition transposeRect (r : DOMRect) : DOMRect :=
  {| left := top r; right := bottom r; width := height r;
     top := left r; bottom := right r; height := width r |}.

Definition transpose (el : Element) : Element :=
  {| boundingClientRect := transposeRect (boundingClientRect el);
     scrollLeft := scrollTop el;
     scrollTop := scrollLeft el |}.

Definition otherAxis (axis : Axis) : Axis :=
  match axis with X => Y | Y => X end.

(** Whether the child at index [j] overlaps [pos]; no child, no overlap. *)
Definition hitsAt (axis : Axis) (children : list Element) (pos : float)
    (j : Z) : bool :=
  match nthChild children j with
  | Some el => overlaps axis el pos
  | None => false
  end.

(** The distance from index [s] to index [j] around a circle of [n]
    places: the shorter of the way forward and the way backward. *)
Definition circularDistance (n s j : Z) : Z :=
  Z.min ((j - s) mod n) ((s - j) mod n).

(** The scroll delta in the words of the specification:
    position(el) - position(container) - offset * length(el). *)
Definition spec_scrollDelta (axis : Axis) (alignment : Alignment)
    (container el : Element) (offset : float) : float :=
  (getPosition axis alignment el - getPosition axis alignment container
   - offset * length_ (getDimension axis el))%float.

(** No child [d] steps away from [s], in either direction, overlaps. *)
Definition missAt (axis : Axis) (children : list Element) (s : Z)
    (pos : float) (d : Z) : Prop :=
  hitsAt axis children pos ((s + d) mod Z.of_nat (length children)) = false
  /\ hitsAt axis children pos ((s - d) mod Z.of_nat (length children)) = false.

(** The child found [d] steps away: the one forward if it overlaps, else
    the one backward. *)
Definition foundAt (axis : Axis) (children : list Element) (s : Z)
    (pos : float) (d k : Z) : Prop :=
  (hitsAt axis children pos ((s + d) mod Z.of_nat (length children)) = true
   /\ k = (s + d) mod Z.of_nat (length children))
  \/ (hitsAt axis children pos ((s + d) mod Z.of_nat (length children)) = false
      /\ hitsAt axis children pos ((s - d) mod Z.of_nat (length children))
         = true
      /\ k = (s - d) mod Z.of_nat (length children)).

(** A row of slides along [axis]: no slide ends before it starts, and each
    ends no later than the next one starts. *)
Fixpoint tiled (axis : Axis) (children : list Element) : bool :=
  match children with
  | [] => true
  | a :: rest =>
      (start (getDimension axis a) <=? end_ (getDimension axis a))%float
      && match rest with
         | [] => true
         | b :: _ =>
             (end_ (getDimension axis a) <=? start (getDimension axis b))%float
         end
      && tiled axis rest
  end.

(** *** Sample elements *)

(** A slide 10 pixels wide and 5 pixels high at the origin. *)
Definition slide : Element :=
  {| boundingClientRect := mkRect 0 10 10 0 5 5;
     scrollLeft := 0; scrollTop := 0 |}.

(** Three slides side by side, 10 pixels each, seen through a container
    whose start edge is at 12: only the middle slide overlaps it. *)
Definition slideAt (from to : float) : Element :=
  {| boundingClientRect := mkRect from to 10 0 5 5;
     scrollLeft := 0; scrollTop := 0 |}.
Definition threeSlides : list Element :=
  [slideAt 0 10; slideAt 10 20; slideAt 20 30].
Definition viewport : Element := slideAt 12 22.

End Dimensions.

(** ** extensions/amp-facebook/0.1/amp-facebook.js *)

Module AmpFacebook.
Import Js.

(** *** The DOM objects the component touches *)

(** A browsing context ([WindowProxy]).  [event.source != contentWindow]
    compares two of them, or [null], by identity. *)
Definition Window := positive.

(** An iframe element.  [frameId] is the identity of the object; while the
    iframe is in a document its browsing context is the one with that
    identity, and it has none while detached. *)
Record HTMLIFrameElement := mkIframe {
  frameId : positive;
  iframeTitle : string;
  fillContent : bool;
  iframeAttributes : gmap string string;
  connected : bool
}.

Definition contentWindow (iframe : HTMLIFrameElement) : option Window :=
  if connected iframe then Some (frameId iframe) else None.

Record AmpElement := mkAmpElement {
  attributes : gmap string string;
  title : string;
  childNodes : list HTMLIFrameElement
}.

(** [getAttribute] is [null] for an absent attribute. *)
Definition getAttribute (el : AmpElement) (name : string) : JsValue :=
  match attributes el !! name with
  | Some value => JString value
  | None => JNull
  end.

Definition hasAttribute (el : AmpElement) (name : string) : bool :=
  bool_decide (is_Some (attributes el !! name)).

Definition setAttribute (iframe : HTMLIFrameElement) (name value : string)
  : HTMLIFrameElement :=
  {| frameId := frameId iframe;
     iframeTitle := iframeTitle iframe;
     fillContent := fillContent iframe;
     iframeAttributes := <[name := value]> (iframeAttributes iframe);
     connected := connected iframe |}.

Definition setTitle (iframe : HTMLIFrameElement) (value : string)
  : HTMLIFrameElement :=
  {| frameId := frameId iframe;
     iframeTitle := value;
     fillContent := fillContent iframe;
     iframeAttributes := iframeAttributes iframe;
     connected := connected iframe |}.

Definition setConnected (iframe : HTMLIFrameElement) (value : bool)
  : HTMLIFrameElement :=
  {| frameId := frameId iframe;
     iframeTitle := iframeTitle iframe;
     fillContent := fillContent iframe;
     iframeAttributes := iframeAttributes iframe;
     connected := value |}.

(** [applyFillContent] of the base class marks the iframe as filling its
    parent. *)
Definition applyFillContent (iframe : HTMLIFrameElement) : HTMLIFrameElement :=
  {| frameId := frameId iframe;
     iframeTitle := iframeTitle iframe;
     fillContent := true;
     iframeAttributes := iframeAttributes iframe;
     connected := connected iframe |}.

(** A [message] event as the handler reads it. *)
Record MessageEvent := mkEvent {
  source : option Window;
  data : JsValue
}.

(** *** The component *)

(** The two closures that [layoutCallback] hands to the host, both bound to
    the component: the arrow function given to [listenFor] and
    [this.handleFacebookMessages_.bind(this)] given to [listen]. *)
Inductive IframeCallback := EmbedSizeCallback.
Inductive WindowCallback := BoundHandleFacebookMessages.

Record IframeListener := mkIframeListener {
  listenTarget : positive;
  typeOfMessage : string;
  iframeCallback : IframeCallback;
  is3P : bool
}.

Record WindowListener := mkWindowListener {
  eventType : string;
  windowCallback : WindowCallback
}.

#[global] Instance WindowCallback_eq_dec : EqDecision WindowCallback.
Proof. solve_decision. Defined.
#[global] Instance WindowListener_eq_dec : EqDecision WindowListener.
Proof. solve_decision. Defined.

(** The calls made on [AMP.BaseElement] that show outside the component. *)
Inductive BaseCall :=
| ToggleLoading (on : bool)
| ForceChangeHeight (newHeight : JsValue).

(** The component's own fields, then what its calls leave in the host: the
    base-class calls in the order made, and the listeners registered on the
    window and on iframes. *)
Record AmpFacebook := mkAmpFacebook {
  element : AmpElement;
  iframe_ : option HTMLIFrameElement;
  dataLocale_ : string;
  unlistenMessage_ : option WindowListener;
  toggleLoadingCounter_ : Z;
  baseCalls : list BaseCall;
  windowListeners : list WindowListener;
  iframeListeners : list IframeListener
}.

Definition set_element (this : AmpFacebook) (v : AmpElement) : AmpFacebook :=
  mkAmpFacebook v (iframe_ this) (dataLocale_ this) (unlistenMessage_ this)
    (toggleLoadingCounter_ this) (baseCalls this) (windowListeners this)
    (iframeListeners this).
Definition set_iframe_ (this : AmpFacebook) (v : option HTMLIFrameElement)
  : AmpFacebook :=
  mkAmpFacebook (element this) v (dataLocale_ this) (unlistenMessage_ this)
    (toggleLoadingCounter_ this) (baseCalls this) (windowListeners this)
    (iframeListeners this).
Definition set_unlistenMessage_ (this : AmpFacebook)
    (v : option WindowListener) : AmpFacebook :=
  mkAmpFacebook (element this) (iframe_ this) (dataLocale_ this) v
    (toggleLoadingCounter_ this) (baseCalls this) (windowListeners this)
    (iframeListeners this).
Definition set_toggleLoadingCounter_ (this : AmpFacebook) (v : Z)
  : AmpFacebook :=
  mkAmpFacebook (element this) (iframe_ this) (dataLocale_ this)
    (unlistenMessage_ this) v (baseCalls this) (windowListeners this)
    (iframeListeners this).
Definition set_baseCalls (this : AmpFacebook) (v : list BaseCall)
  : AmpFacebook :=
  mkAmpFacebook (element this) (iframe_ this) (dataLocale_ this)
    (unlistenMessage_ this) (toggleLoadingCounter_ this) v
    (windowListeners this) (iframeListeners this).
Definition set_windowListeners (this : AmpFacebook)
    (v : list WindowListener) : AmpFacebook :=
  mkAmpFacebook (element this) (iframe_ this) (dataLocale_ this)
    (unlistenMessage_ this) (toggleLoadingCounter_ this) (baseCalls this) v
    (iframeListeners this).
Definition set_iframeListeners (this : AmpFacebook)
    (v : list IframeListener) : AmpFacebook :=
  mkAmpFacebook (element this) (iframe_ this) (dataLocale_ this)
    (unlistenMessage_ this) (toggleLoadingCounter_ this) (baseCalls this)
    (windowListeners this) v.

Definition toggleLoading (this : AmpFacebook) (on : bool) : AmpFacebook :=
  set_baseCalls this (baseCalls this ++ [ToggleLoading on]).

Definition forceChangeHeight (this : AmpFacebook) (newHeight : JsValue)
  : AmpFacebook :=
  set_baseCalls this (baseCalls this ++ [ForceChangeHeight newHeight]).

(** [element.appendChild(iframe)]: the iframe enters the document and gets
    its browsing context.  The connected iframe is returned as well, since
    [iframe] and the new child are one object. *)
Definition appendChild (this : AmpFacebook) (iframe : HTMLIFrameElement)
  : AmpFacebook * HTMLIFrameElement :=
  let iframe := setConnected iframe true in
  let el := element this in
  (set_element this
     {| attributes := attributes el;
        title := title el;
        childNodes := childNodes el ++ [iframe] |},
   iframe).

(** Modelled from the spec: [getData] of [src/event-helper], [isObject] of
    [src/core/types] and [userAssert] of [src/log] are imported but not
    among the sources.  [getData] reads the event's [data]; [isObject] is
    the test for a plain object that separates it from the string that the
    parse check is for; [userAssert] rejects (throws a user error naming
    the offending value) when its condition is falsy. *)
Definition getData (event : MessageEvent) : JsValue := data event.

Definition isObject (v : JsValue) : bool :=
  match v with
  | JObject _ => true
  | _ => false
  end.

Definition userAssert (shouldBeTrueish : bool) (was : JsValue)
  : completion unit :=
  if shouldBeTrueish then Normal () else Throw (UserError was).

(** Modelled from the spec: [listenFor] of [src/iframe-helper], [listen] of
    [src/event-helper] and [removeElement] of [src/core/dom] are imported
    but not among the sources.  [listenFor] registers a callback for one
    message type of one iframe, [listen] registers an event listener and
    returns the function that removes it again, [removeElement] takes a
    node out of its parent. *)
Definition listenFor (this : AmpFacebook) (iframe : HTMLIFrameElement)
    (typeOfMessage : string) (callback : IframeCallback) (opt_is3P : bool)
  : AmpFacebook :=
  set_iframeListeners this
    (iframeListeners this
       ++ [mkIframeListener (frameId iframe) typeOfMessage callback opt_is3P]).

Definition listen (this : AmpFacebook) (eventType : string)
    (listener : WindowCallback) : AmpFacebook * WindowListener :=
  let l := mkWindowListener eventType listener in
  (set_windowListeners this (windowListeners this ++ [l]), l).

Definition unlisten (this : AmpFacebook) (l : WindowListener) : AmpFacebook :=
  set_windowListeners this
    (filter (fun l' => l' <> l) (windowListeners this)).

Definition removeElement (this : AmpFacebook) (iframe : HTMLIFrameElement)
  : AmpFacebook :=
  let el := element this in
  set_element this
    {| attributes := attributes el;
       title := title el;
       childNodes :=
         filter (fun c => frameId c <> frameId iframe) (childNodes el) |}.

Definition TYPE : string := "facebook".

Section Component.

(** [Number::toString], a built-in of the language. *)
Variable numberToString : float -> string.

(** [tryParseJson] of [src/core/types/object/json], [getIframe] of
    [src/3p-frame], [dashToUnderline] of [src/core/types/string] and the
    [test] flag of [getMode()] are imported but not among the sources; they
    are parameters, and so is the browser's [navigator.language]. *)
Variable tryParseJson : JsValue -> JsValue.
Variable getIframe : AmpElement -> string -> HTMLIFrameElement.
Variable dashToUnderline : string -> string.
Variable navigatorLanguage : string.
Variable getMode_test : bool.

Definition constructor (element : AmpElement) : AmpFacebook :=
  {| element := element;
     iframe_ := None;
     dataLocale_ :=
       if hasAttribute element "data-locale"
       then default "" (attributes element !! "data-locale")
       else dashToUnderline navigatorLanguage;
     unlistenMessage_ := None;
     toggleLoadingCounter_ := 0;
     baseCalls := [];
     windowListeners := [];
     iframeListeners := [] |}.

(** The promise of [loadPromise(iframe)] that the method returns is the
    host's; the model returns the component as the call leaves it. *)
Definition layoutCallback (this : AmpFacebook) : completion AmpFacebook :=
  let embedAs := getAttribute (element this) "data-embed-as" in
  _ ← userAssert
        (negb (ToBoolean embedAs)
         || negb (indexOf ["post"; "video"; "comment"] embedAs =? -1))
        embedAs;
  let iframe := getIframe (element this) TYPE in
  let iframe :=
    setTitle iframe
      (if bool_decide (title (element this) = "") then "Facebook"
       else title (element this)) in
  let iframe := applyFillContent iframe in
  let iframe :=
    if hasAttribute (element this) "data-allowfullscreen"
    then setAttribute iframe "allowfullscreen" "true"
    else iframe in
  let this := listenFor this iframe "embed-size" EmbedSizeCallback true in
  let '(this, unlistenMessage) :=
    listen this "message" BoundHandleFacebookMessages in
  let this := set_unlistenMessage_ this (Some unlistenMessage) in
  let this := toggleLoading this true in
  let this :=
    if getMode_test
    then set_toggleLoadingCounter_ this (toggleLoadingCounter_ this + 1)
    else this in
  let '(this, iframe) := appendChild this iframe in
  let this := set_iframe_ this (Some iframe) in
  Normal this.

(** The arrow function registered for ['embed-size']. *)
Definition embedSizeCallback (this : AmpFacebook) (data : JsValue)
  : completion AmpFacebook :=
  newHeight ← getProp data "height";
  Normal (forceChangeHeight this newHeight).

Definition handleFacebookMessages_ (this : AmpFacebook) (event : MessageEvent)
  : completion AmpFacebook :=
  if match iframe_ this with
     | Some iframe => negb (bool_decide (source event = contentWindow iframe))
     | None => false
     end
  then Normal this
  else
    let eventData := getData event in
    if negb (ToBoolean eventData) then Normal this
    else
      let parsedEventData :=
        if isObject eventData then eventData else tryParseJson eventData in
      if negb (ToBoolean parsedEventData) then Normal this
      else
        action ← getProp eventData "action";
        if looseEqualsString numberToString action "ready"
        then
          let this := toggleLoading this false in
          let this :=
            if getMode_test
            then set_toggleLoadingCounter_ this (toggleLoadingCounter_ this + 1)
            else this in
          Normal this
        else Normal this.

Definition unlayoutCallback (this : AmpFacebook) : AmpFacebook :=
  let this :=
    match iframe_ this with
    | Some iframe => set_iframe_ (removeElement this iframe) None
    | None => this
    end in
  match unlistenMessage_ this with
  | Some l => unlisten this l
  | None => this
  end.

(** *** Delivery of messages by the host *)

Definition runIframeCallback (callback : IframeCallback) (this : AmpFacebook)
    (data : JsValue) : completion AmpFacebook :=
  match callback with
  | EmbedSizeCallback => embedSizeCallback this data
  end.

(** Modelled from the spec: the dispatch inside [listenFor] is not among the
    sources.  A message of type [typeOfMessage] coming from [iframe] is
    handed, with its data, to every callback registered for that iframe and
    that type, in the order of registration. *)
Fixpoint deliverTo (listeners : list IframeListener) (from : positive)
    (type : string) (data : JsValue) (this : AmpFacebook)
  : completion AmpFacebook :=
  match listeners with
  | [] => Normal this
  | l :: rest =>
      if bool_decide (listenTarget l = from)
         && bool_decide (typeOfMessage l = type)
      then this' ← runIframeCallback (iframeCallback l) this data;
           deliverTo rest from type data this'
      else deliverTo rest from type data this
  end.

Definition receiveIframeMessage (this : AmpFacebook)
    (iframe : HTMLIFrameElement) (type : string) (data : JsValue)
  : completion AmpFacebook :=
  deliverTo (iframeListeners this) (frameId iframe) type data this.

(** A run of the window's [message] events through the handler. *)
Fixpoint handleAll (this : AmpFacebook) (events : list MessageEvent)
  : completion AmpFacebook :=
  match events with
  | [] => Normal this
  | event :: rest =>
      this' ← handleFacebookMessages_ this event;
      handleAll this' rest
  end.

End Component.

(** *** The rest of the class *)

Section Lifecycle.

Variable numberToString : float -> string.
Variable tryParseJson : JsValue -> JsValue.
Variable getIframe : AmpElement -> string -> HTMLIFrameElement.
Variable getMode_test : bool.

(** [isLayoutSizeDefined] of [src/layout] is imported but not among the
    sources; a parameter over whatever a layout is. *)
Variable Layout : Type.
Variable isLayoutSizeDefined : Layout -> bool.

Definition renderOutsideViewport (this : AmpFacebook) : float := 0.75%float.

Definition isLayoutSupported (this : AmpFacebook) (layout : Layout) : bool :=
  isLayoutSizeDefined layout.

Definition unlayoutOnPause (this : AmpFacebook) : bool := true.

(** What [preconnectCallback] asks of the preconnect service and of
    [preloadBootstrap], in the order asked; [opt_onLayout] is passed on as
    it came.  The component itself is not written. *)
Inductive PreconnectCall :=
| PreconnectUrl (url : string) (opt_onLayout : JsValue)
| Preload (url : string) (as_ : string)
| PreloadBootstrap (type : string).

Definition preconnectCallback (this : AmpFacebook) (opt_onLayout : JsValue)
  : list PreconnectCall :=
  [PreconnectUrl "https://facebook.com" opt_onLayout;
   Preload ("https://connect.facebook.net/" +:+ dataLocale_ this +:+ "/sdk.js")
     "script";
   PreloadBootstrap TYPE].

(** The calls the host makes on a component once it is constructed: the
    lifecycle callbacks and the two listeners. *)
Inductive HostCall :=
| CallLayout
| CallUnlayout
| CallMessage (event : MessageEvent)
| CallEmbedSize (data : JsValue).

Definition hostCall (this : AmpFacebook) (call : HostCall)
  : completion AmpFacebook :=
  match call with
  | CallLayout => layoutCallback getIframe getMode_test this
  | CallUnlayout => Normal (unlayoutCallback this)
  | CallMessage event =>
      handleFacebookMessages_ numberToString tryParseJson getMode_test this
        event
  | CallEmbedSize data => embedSizeCallback this data
  end.

(** A sequence of host calls; a throwing call ends it. *)
Fixpoint hostCalls (this : AmpFacebook) (calls : list HostCall)
  : completion AmpFacebook :=
  match calls with
  | [] => Normal this
  | call :: rest =>
      this' ← hostCall this call;
      hostCalls this' rest
  end.

End Lifecycle.

(** *** Vocabulary of the statements *)

(** The message comes from the component's iframe, or there is no iframe to
    compare with. *)
Definition fromOwnIframe (this : AmpFacebook) (event : MessageEvent) : bool :=
  match iframe_ this with
  | Some iframe => bool_decide (source event = contentWindow iframe)
  | None => true
  end.

(** The data is an object whose ['action'] is ['ready'] under [==]. *)
Definition saysReady (numberToString : float -> string) (v : JsValue) : bool :=
  match v with
  | JObject props =>
      looseEqualsString numberToString (lookupProp props "action") "ready"
  | _ => false
  end.

(** The component once the ready message is taken: [toggleLoading(false)],
    counted in test mode. *)
Definition loadingEnded (getMode_test : bool) (this : AmpFacebook)
  : AmpFacebook :=
  let this := toggleLoading this false in
  if getMode_test
  then set_toggleLoadingCounter_ this (toggleLoadingCounter_ this + 1)
  else this.

(** How many of the base-class calls are [toggleLoading]. *)
Definition isToggleLoading (call : BaseCall) : bool :=
  match call with
  | ToggleLoading _ => true
  | ForceChangeHeight _ => false
  end.

Definition countToggles (calls : list BaseCall) : Z :=
  Z.of_nat (length (List.filter isToggleLoading calls)).

(** In test mode the counter stands at the number of [toggleLoading] calls
    made; outside test mode it stays at 0. *)
Definition counterInStep (getMode_test : bool) (this : AmpFacebook) : Prop :=
  toggleLoadingCounter_ this
  = if getMode_test then countToggles (baseCalls this) else 0.

(** The heights handed to [forceChangeHeight], in the order handed. *)
Fixpoint forcedHeights (calls : list BaseCall) : list JsValue :=
  match calls with
  | [] => []
  | ForceChangeHeight newHeight :: rest => newHeight :: forcedHeights rest
  | ToggleLoading _ :: rest => forcedHeights rest
  end.

(** The ['height'] of each embed-size message among the host's calls, in
    order; [undefined] where the data has none. *)
Fixpoint embedSizeHeights (calls : list HostCall) : list JsValue :=
  match calls with
  | [] => []
  | CallEmbedSize data :: rest =>
      match getProp data "height" with
      | Normal newHeight => newHeight
      | Throw _ => JUndefined
      end :: embedSizeHeights rest
  | _ :: rest => embedSizeHeights rest
  end.

(** *** Sample messages and components *)

(** The double quote character. *)
Definition dq : string := String (Ascii.ascii_of_nat 34) EmptyString.

(** The text of a JSON-encoded [{action: 'ready'}]. *)
Definition readyJson : string :=
  "{" +:+ dq +:+ "action" +:+ dq +:+ ":" +:+ dq +:+ "ready" +:+ dq +:+ "}".

(** The same message as an object. *)
Definition readyObject : JsValue := JObject [("action", JString "ready")].

(** Stand-ins for the imported helpers where a concrete run is evaluated: a
    detached iframe with identity 7, a parser that knows the ready message
    and rejects everything else, and decimal printing left out. *)
Definition frame7 (_ : AmpElement) (_ : string) : HTMLIFrameElement :=
  {| frameId := 7; iframeTitle := ""; fillContent := false;
     iframeAttributes := ∅; connected := false |}.

Definition parseReadyOnly (v : JsValue) : JsValue :=
  match v with
  | JString s => if bool_decide (s = readyJson) then readyObject else JNull
  | _ => JNull
  end.

Definition noNumbers (_ : float) : string := "".

Definition embedWith (embedAs : string) : AmpElement :=
  {| attributes := {[ "data-embed-as" := embedAs ]};
     title := "";
     childNodes := [] |}.

Definition component (embedAs : string) : AmpFacebook :=
  constructor id "en-US" (embedWith embedAs).

(** The data of an embed-size message asking for a height of 300. *)
Definition embedSize300 : JsValue := JObject [("height", JNumber 300)].

(** The component after a successful [layoutCallback] in test mode. *)
Definition laidOut : AmpFacebook :=
  match layoutCallback frame7 true (component "post") with
  | Normal this => this
  | Throw _ => component "post"
  end.

End AmpFacebook.

(** ** Order facts on binary64 needed for the overlap test *)

Module FloatOrder.

Lemma SFcompare_refl_not_Lt (x : spec_float) : SFcompare x x <> Some Lt.
Proof.
  destruct x as [s|s| |s m e]; cbn; try destruct s; try discriminate.
  - rewrite Z.compare_refl, Pos.compare_cont_refl. discriminate.
  - rewrite Z.compare_refl, Pos.compare_refl. discriminate.
Qed.

Lemma SFcompare_refl_of_ordered (x y : spec_float) (c : comparison) :
  SFcompare x y = Some c -> SFcompare x x = Some Eq.
Proof.
  destruct x as [s|s| |s m e]; cbn.
  - destruct s; reflexivity.
  - destruct s; reflexivity.
  - discriminate.
  - intros _. destruct s.
    + now rewrite Z.compare_refl, Pos.compare_cont_refl.
    + now rewrite Z.compare_refl, Pos.compare_refl.
Qed.

(** [x < x] is false for every binary64 value, NaN included. *)
Lemma ltb_irrefl (x : float) : (x <? x)%float = false.
Proof.
  rewrite ltb_spec. unfold SFltb.
  pose proof (SFcompare_refl_not_Lt (Prim2SF x)) as H.
  destruct (SFcompare (Prim2SF x) (Prim2SF x)) as [[]|]; congruence.
Qed.

(** A number that is below another one is not NaN, hence [x <= x]. *)
Lemma leb_refl_of_ltb (x y : float) :
  (x <? y)%float = true -> (x <=? x)%float = true.
Proof.
  rewrite ltb_spec, leb_spec. unfold SFltb, SFleb.
  destruct (SFcompare (Prim2SF x) (Prim2SF y)) as [c|] eqn:E; [|discriminate].
  intros _. now rewrite (SFcompare_refl_of_ordered _ _ _ E).
Qed.

End FloatOrder.

(** ** Properties of dimensions.js *)

Module DimensionsProofs.
Import Js Dimensions.

(** C2, as stated, fails: on [slide] along X, where start = 0 < 10 = end,
    the position 0 overlaps and the position 10 does not. *)
Lemma overlaps_boundary_points_differ :
  (start (getDimension X slide) <? end_ (getDimension X slide))%float = true
  /\ overlaps X slide (start (getDimension X slide)) = true
  /\ overlaps X slide (end_ (getDimension X slide)) = false
  /\ overlaps X slide (start (getDimension X slide))
     <> overlaps X slide (end_ (getDimension X slide)).
Proof. repeat split; try reflexivity. vm_compute. discriminate. Qed.

(** C2 (amended): for every axis and every element with start < end along
    it, [overlaps] includes the start point and excludes the end point: it
    tests the half-open interval from start to end. *)
Theorem overlaps_start_included_end_excluded (axis : Axis) (el : Element) :
  (start (getDimension axis el) <? end_ (getDimension axis el))%float = true ->
  overlaps axis el (start (getDimension axis el)) = true
  /\ overlaps axis el (end_ (getDimension axis el)) = false.
Proof.
  intros Hlt. unfold overlaps. split.
  - rewrite (FloatOrder.leb_refl_of_ltb _ _ Hlt), Hlt. reflexivity.
  - rewrite FloatOrder.ltb_irrefl. apply andb_false_r.
Qed.

Lemma overlaps_start_included_end_excluded_witness :
  (start (getDimension X slide) <? end_ (getDimension X slide))%float = true
  /\ overlaps X slide (start (getDimension X slide)) = true
  /\ overlaps X slide (end_ (getDimension X slide)) = false.
Proof.
  split; [reflexivity|].
  apply (overlaps_start_included_end_excluded X slide). reflexivity.
Defined.

(** C3: [getPosition] is the start point, the [start] of [getDimension],
    under [Alignment.START], and the center point, (start + end) / 2 of
    [getDimension], under [Alignment.CENTER]. *)
Theorem getPosition_start_or_center (axis : Axis) (el : Element) :
  getPosition axis START el = getStart axis el
  /\ getStart axis el = start (getDimension axis el)
  /\ getPosition axis CENTER el = getCenter axis el
  /\ getCenter axis el
     = ((start (getDimension axis el) + end_ (getDimension axis el)) / 2)%float.
Proof. repeat split. Qed.

(** C4: every geometry helper gives on one axis what it gives on the other
    axis for the transposed element, and a translation along one axis
    writes 0 for the other axis. *)
Theorem axes_treated_symmetrically
    (axis : Axis) (alignment : Alignment) (container el : Element)
    (position delta : float)
    (numberToString : float -> string)
    (setStyle : Element -> string -> string -> Element)
    (setImportantStyles : Element -> list (string * string) -> Element) :
  getDimension X el = getDimension Y (transpose el)
  /\ getDimension axis el = getDimension (otherAxis axis) (transpose el)
  /\ getCenter axis el = getCenter (otherAxis axis) (transpose el)
  /\ getStart axis el = getStart (otherAxis axis) (transpose el)
  /\ getPosition axis alignment el
     = getPosition (otherAxis axis) alignment (transpose el)
  /\ overlaps axis el position
     = overlaps (otherAxis axis) (transpose el) position
  /\ getPercentageOffsetFromAlignment axis alignment container el
     = getPercentageOffsetFromAlignment (otherAxis axis) alignment
         (transpose container) (transpose el)
  /\ setTransformTranslateStyle numberToString setStyle setImportantStyles
       X el delta
     = setImportantStyles
         (setStyle el "transform" (translate numberToString delta 0))
         [("--content-transform", translate numberToString delta 0)]
  /\ setTransformTranslateStyle numberToString setStyle setImportantStyles
       Y el delta
     = setImportantStyles
         (setStyle el "transform" (translate numberToString 0 delta))
         [("--content-transform", translate numberToString 0 delta)].
Proof.
  destruct axis, alignment; repeat split.
Qed.

(** C7: [updateScrollPosition] stores the old scroll position plus the
    delta, and [scrollContainerToElement] adds
    position(el) - position(container) - offset * length(el) to the
    container's scroll position along the axis, leaving the other axis (and
    the rest of the container) as it was; an omitted offset counts as 0. *)
Theorem scroll_delta_is_direct_arithmetic
    (axis : Axis) (alignment : Alignment) (container el : Element)
    (offset delta : float) :
  updateScrollPosition axis el delta
  = setScrollPosition axis el (getScrollPosition axis el + delta)%float
  /\ getScrollPosition axis (updateScrollPosition axis el delta)
     = (getScrollPosition axis el + delta)%float
  /\ getScrollPosition axis
       (scrollContainerToElement axis alignment container el (Some offset))
     = (getScrollPosition axis container
        + spec_scrollDelta axis alignment container el offset)%float
  /\ getScrollPosition (otherAxis axis)
       (scrollContainerToElement axis alignment container el (Some offset))
     = getScrollPosition (otherAxis axis) container
  /\ boundingClientRect
       (scrollContainerToElement axis alignment container el (Some offset))
     = boundingClientRect container
  /\ scrollContainerToElement axis alignment container el None
     = scrollContainerToElement axis alignment container el (Some 0%float).
Proof.
  destruct axis, alignment; repeat split.
Qed.

(** *** The search of [findOverlappingIndex] *)

Lemma mod_js_is_modulo (a b : Z) : 0 < b -> mod_js a b = a mod b.
Proof.
  intros Hb. unfold mod_js.
  replace (0 <? b) with true by (symmetry; now apply Z.ltb_lt).
  destruct (Z.ltb_spec 0 a) as [Ha|Ha]; cbn [andb].
  - apply Z.rem_mod_nonneg; lia.
  - assert (Hr : - b < Z.rem a b <= 0).
    { apply Z.rem_bound_pos_neg; lia. }
    pose proof (Z.quot_rem' a b) as Hqr.
    destruct (Z.eq_dec (Z.rem a b) 0) as [E|E].
    + rewrite E in *. cbn [Z.add]. rewrite Z.rem_same by lia.
      apply (Z.mod_unique a b (a ÷ b)); lia.
    + rewrite Z.rem_small by lia.
      apply (Z.mod_unique a b (a ÷ b - 1)); lia.
Qed.

(** Within one turn of the circle, [mod] is a shift by at most [n]. *)
Lemma mod_one_turn (n x : Z) :
  0 < n -> - n <= x < 2 * n ->
  x mod n = if x <? 0 then x + n else if x <? n then x else x - n.
Proof.
  intros Hn Hx. symmetry.
  destruct (Z.ltb_spec x 0); [|destruct (Z.ltb_spec x n)].
  - apply (Z.mod_unique x n (-1)); lia.
  - apply (Z.mod_unique x n 0); lia.
  - apply (Z.mod_unique x n 1); lia.
Qed.

Ltac one_turn :=
  repeat match goal with
         | |- context [?x mod ?n] => rewrite (mod_one_turn n x) by lia
         | H : context [?x mod ?n] |- _ =>
             rewrite (mod_one_turn n x) in H by lia
         | |- context [?x <? ?y] => destruct (Z.ltb_spec x y)
         | H : context [?x <? ?y] |- _ => destruct (Z.ltb_spec x y)
         end.

Lemma half_bounds (n : Z) : 2 * (n / 2) <= n < 2 * (n / 2) + 2.
Proof.
  pose proof (Z.mul_div_le n 2). pose proof (Z.mul_succ_div_gt n 2). lia.
Qed.

(** Every index lies at its circular distance forward or backward of [s],
    and that distance is at most half the circle. *)
Lemma index_at_circularDistance (n s j : Z) :
  0 <= s < n -> 0 <= j < n ->
  0 <= circularDistance n s j <= n / 2
  /\ (j = (s + circularDistance n s j) mod n
      \/ j = (s - circularDistance n s j) mod n).
Proof.
  intros Hs Hj. pose proof (half_bounds n) as Hh. unfold circularDistance.
  rewrite (mod_one_turn n (j - s)), (mod_one_turn n (s - j)) by lia.
  destruct (Z.ltb_spec (j - s) 0), (Z.ltb_spec (s - j) 0),
    (Z.ltb_spec (j - s) n), (Z.ltb_spec (s - j) n); try lia;
    (destruct (Z.min_spec (j - s + n) (s - j)) as [[? ->]|[? ->]]
     || destruct (Z.min_spec (j - s) (s - j + n)) as [[? ->]|[? ->]]
     || destruct (Z.min_spec (j - s) (s - j)) as [[? ->]|[? ->]]);
    (split; [lia|]); one_turn; lia.
Qed.

(** The places [d] steps forward and backward of [s] are at distance [d]
    as long as [d] is at most half the circle. *)
Lemma circularDistance_of_step (n s d : Z) :
  0 <= s < n -> 0 <= d <= n / 2 ->
  circularDistance n s ((s + d) mod n) = d
  /\ circularDistance n s ((s - d) mod n) = d
  /\ 0 <= (s + d) mod n < n /\ 0 <= (s - d) mod n < n.
Proof.
  intros Hs Hd. pose proof (half_bounds n) as Hh. unfold circularDistance.
  rewrite (mod_one_turn n (s + d)), (mod_one_turn n (s - d)) by lia.
  repeat split; one_turn; lia.
Qed.

Section Search.

Variable mod_ : Z -> Z -> Z.
Hypothesis mod_is_modulo : forall a b, 0 < b -> mod_ a b = a mod b.

Variables (axis : Axis) (children : list Element) (s : Z) (pos : float).

Let n : Z := Z.of_nat (length children).

Hypothesis start_in_range : 0 <= s < n.

Local Abbreviation missAt := (Dimensions.missAt axis children s pos).
Local Abbreviation foundAt := (Dimensions.foundAt axis children s pos).

Lemma overlapsAt_in_range (j : Z) :
  0 <= j < n -> overlapsAt axis children j pos = Normal (hitsAt axis children pos j).
Proof.
  intros Hj. unfold overlapsAt, hitsAt, nthChild.
  destruct (Z.ltb_spec j 0); [lia|].
  destruct (children !! Z.to_nat j) eqn:E; [reflexivity|].
  apply lookup_ge_None in E. unfold n in Hj. lia.
Qed.

(** The loop entered at [i] with the iterations up to [n / 2] left returns,
    and it returns the first hit going outwards from distance [i]. *)
Lemma findOverlappingLoop_outwards (remaining : nat) :
  forall i, 1 <= i -> i + Z.of_nat remaining = n / 2 + 1 ->
  exists r,
    findOverlappingLoop mod_ axis children s pos remaining i = Normal r
    /\ match r with
       | None => forall d, i <= d <= n / 2 -> missAt d
       | Some k =>
           exists d, i <= d <= n / 2
                     /\ (forall d', i <= d' < d -> missAt d')
                     /\ foundAt d k
       end.
Proof.
  pose proof (half_bounds n) as Hh.
  induction remaining as [|remaining IH]; intros i Hi Hrem.
  - exists None. split; [reflexivity|]. intros d Hd. lia.
  - cbn [findOverlappingLoop]. fold n.
    assert (Hd : 0 <= i <= n / 2) by lia.
    destruct (circularDistance_of_step n s i start_in_range Hd)
      as (_ & _ & Hnext & Hprev).
    rewrite !mod_is_modulo by lia.
    rewrite (overlapsAt_in_range _ Hnext). cbn.
    destruct (hitsAt axis children pos ((s + i) mod n)) eqn:En.
    + exists (Some ((s + i) mod n)). split; [reflexivity|].
      exists i. split; [lia|]. split; [intros; lia|]. left. auto.
    + rewrite (overlapsAt_in_range _ Hprev). cbn.
      destruct (hitsAt axis children pos ((s - i) mod n)) eqn:Ep.
      * exists (Some ((s - i) mod n)). split; [reflexivity|].
        exists i. split; [lia|]. split; [intros; lia|]. right. auto.
      * destruct (IH (i + 1)) as (r & Hr & Hspec); [lia|lia|].
        exists r. split; [exact Hr|].
        assert (Hmiss : missAt i) by (split; assumption).
        destruct r as [k|].
        -- destruct Hspec as (d & Hd' & Hbefore & Hfound).
           exists d. split; [lia|]. split; [|exact Hfound].
           intros d' Hd''. destruct (Z.eq_dec d' i) as [->|]; [exact Hmiss|].
           apply Hbefore. lia.
        -- intros d Hd'. destruct (Z.eq_dec d i) as [->|]; [exact Hmiss|].
           apply Hspec. lia.
Qed.

(** The whole search: the first hit going outwards from distance 0. *)
Lemma findOverlappingIndex_outwards (alignment : Alignment)
    (container : Element) :
  pos = getPosition axis alignment container ->
  exists r,
    findOverlappingIndex mod_ axis alignment container children s = Normal r
    /\ match r with
       | None => forall d, 0 <= d <= n / 2 -> missAt d
       | Some k =>
           exists d, 0 <= d <= n / 2
                     /\ (forall d', 0 <= d' < d -> missAt d')
                     /\ foundAt d k
       end.
Proof.
  intros Hpos. pose proof (half_bounds n) as Hh.
  unfold findOverlappingIndex. rewrite <- Hpos.
  rewrite (overlapsAt_in_range s start_in_range). cbn.
  assert (H0 : (s + 0) mod n = s /\ (s - 0) mod n = s).
  { rewrite Z.add_0_r, Z.sub_0_r, Z.mod_small by lia. auto. }
  destruct H0 as [Hplus Hminus].
  destruct (hitsAt axis children _ s) eqn:E0.
  - exists (Some s). split; [reflexivity|].
    exists 0. split; [lia|]. split; [intros; lia|].
    left. fold n. rewrite Hplus. auto.
  - assert (Hmiss : missAt 0).
    { unfold Dimensions.missAt. fold n. rewrite Hplus, Hminus. auto. }
    fold n.
    destruct (findOverlappingLoop_outwards (Z.to_nat (n / 2)) 1)
      as (r & Hr & Hspec); [lia|lia|].
    exists r. split; [exact Hr|].
    destruct r as [k|].
    + destruct Hspec as (d & Hd & Hbefore & Hfound).
      exists d. split; [lia|]. split; [|exact Hfound].
      intros d' Hd'. destruct (Z.eq_dec d' 0) as [->|]; [exact Hmiss|].
      apply Hbefore. lia.
    + intros d Hd. destruct (Z.eq_dec d 0) as [->|]; [exact Hmiss|].
      apply Hspec. lia.
Qed.

End Search.

(** C9: on a non-empty array and a valid start index the search returns
    (it does not throw); it returns [undefined] exactly when no child
    overlaps the container's alignment position; an index it returns is in
    range, overlaps, and is at minimal circular distance from the start
    index among the overlapping children, the forward candidate winning
    when it overlaps at that distance; and the start index itself is
    returned when its child overlaps. *)
Theorem findOverlappingIndex_nearest_overlap
    (mod_ : Z -> Z -> Z) (axis : Axis) (alignment : Alignment)
    (container : Element) (children : list Element) (startIndex : Z) :
  (forall a b, 0 < b -> mod_ a b = a mod b) ->
  children <> [] ->
  0 <= startIndex < Z.of_nat (length children) ->
  exists r,
    findOverlappingIndex mod_ axis alignment container children startIndex
    = Normal r
    /\ (r = None <->
        forall j, 0 <= j < Z.of_nat (length children) ->
          hitsAt axis children (getPosition axis alignment container) j
          = false)
    /\ (forall k, r = Some k ->
          0 <= k < Z.of_nat (length children)
          /\ hitsAt axis children (getPosition axis alignment container) k
             = true
          /\ (forall j, 0 <= j < Z.of_nat (length children) ->
                hitsAt axis children (getPosition axis alignment container) j
                = true ->
                circularDistance (Z.of_nat (length children)) startIndex k
                <= circularDistance (Z.of_nat (length children)) startIndex j)
          /\ (hitsAt axis children (getPosition axis alignment container)
                ((startIndex
                  + circularDistance (Z.of_nat (length children)) startIndex k)
                 mod Z.of_nat (length children)) = true ->
              k = (startIndex
                   + circularDistance (Z.of_nat (length children)) startIndex k)
                  mod Z.of_nat (length children)))
    /\ (hitsAt axis children (getPosition axis alignment container) startIndex
        = true -> r = Some startIndex).
Proof.
  intros Hmod _ Hs.
  set (n := Z.of_nat (length children)) in *.
  set (pos := getPosition axis alignment container).
  destruct (findOverlappingIndex_outwards mod_ Hmod axis children startIndex
              pos Hs alignment container eq_refl) as (r & Hr & Hspec).
  fold n in Hspec.
  (* a hit at index [j] is a hit at distance [circularDistance n s j] *)
  assert (Hhit : forall j, 0 <= j < n -> hitsAt axis children pos j = true ->
            forall d, d = circularDistance n startIndex j ->
            ~ missAt axis children startIndex pos d).
  { intros j Hj Hjhit d -> [Hf Hb]. fold n in Hf, Hb.
    destruct (index_at_circularDistance n startIndex j Hs Hj) as (_ & [E|E]);
      rewrite <- E in *; congruence. }
  (* what a found index is *)
  assert (Hfound : forall d k, 0 <= d <= n / 2 ->
            foundAt axis children startIndex pos d k ->
            0 <= k < n /\ hitsAt axis children pos k = true
            /\ circularDistance n startIndex k = d).
  { intros d k Hd Hf. fold n in Hf.
    destruct (circularDistance_of_step n startIndex d Hs Hd)
      as (Cf & Cb & Rf & Rb).
    destruct Hf as [(Hh & ->)|(_ & Hh & ->)]; auto. }
  exists r. split; [exact Hr|]. split; [|split].
  - split.
    + intros ->. intros j Hj.
      destruct (hitsAt axis children pos j) eqn:E; [|reflexivity].
      exfalso. apply (Hhit j Hj E _ eq_refl). apply Hspec.
      apply (index_at_circularDistance n startIndex j Hs Hj).
    + intros Hnone. destruct r as [k|]; [|reflexivity].
      destruct Hspec as (d & Hd & _ & Hf).
      destruct (Hfound d k Hd Hf) as (Hk & Hkhit & _).
      rewrite (Hnone k Hk) in Hkhit. discriminate.
  - intros k ->. destruct Hspec as (d & Hd & Hbefore & Hf).
    destruct (Hfound d k Hd Hf) as (Hk & Hkhit & Hdist).
    split; [exact Hk|]. split; [exact Hkhit|]. split.
    + intros j Hj Hjhit. rewrite Hdist.
      destruct (Z.le_gt_cases d (circularDistance n startIndex j)) as [|Hlt];
        [assumption|].
      exfalso. apply (Hhit j Hj Hjhit _ eq_refl). apply Hbefore.
      pose proof (index_at_circularDistance n startIndex j Hs Hj). lia.
    + rewrite Hdist. intros Hfwd. fold n in Hf.
      destruct Hf as [(_ & ->)|(Hmiss & _)]; [reflexivity|].
      fold n in Hmiss. congruence.
  - intros Hshit. destruct r as [k|].
    + destruct Hspec as (d & Hd & Hbefore & Hf).
      destruct (Z.eq_dec d 0) as [->|Hne].
      * fold n in Hf. unfold foundAt in Hf.
        rewrite Z.add_0_r, Z.sub_0_r, Z.mod_small in Hf by lia.
        destruct Hf as [(_ & ->)|(Hmiss & _)]; [reflexivity|congruence].
      * exfalso. destruct (Hbefore 0) as [Hf0 _]; [lia|]. fold n in Hf0.
        rewrite Z.add_0_r, Z.mod_small in Hf0 by lia. congruence.
    + exfalso. destruct (Hspec 0) as [Hf0 _]; [pose proof (half_bounds n); lia|].
      fold n in Hf0. rewrite Z.add_0_r, Z.mod_small in Hf0 by lia. congruence.
Qed.

Example findOverlappingIndex_middle_slide :
  findOverlappingIndex mod_js X START viewport threeSlides 0 = Normal (Some 1).
Proof. reflexivity. Qed.

Example findOverlappingIndex_wraps_backwards :
  findOverlappingIndex mod_js X START (slideAt 25 35) threeSlides 0
  = Normal (Some 2).
Proof. reflexivity. Qed.

Example findOverlappingIndex_nothing_overlaps :
  findOverlappingIndex mod_js X START (slideAt 40 50) threeSlides 1
  = Normal None.
Proof. reflexivity. Qed.

Example findOverlappingIndex_forward_first :
  findOverlappingIndex mod_js X START (slideAt 5 15)
    [slideAt 20 30; slideAt 0 10; slideAt 0 10] 0
  = Normal (Some 1).
Proof. reflexivity. Qed.

Example findOverlappingIndex_outside_the_array :
  findOverlappingIndex mod_js X START viewport threeSlides 3 = Throw TypeError.
Proof. reflexivity. Qed.

Lemma findOverlappingIndex_nearest_overlap_witness :
  (threeSlides <> [] /\ 0 <= 0 < Z.of_nat (length threeSlides))
  /\ exists r,
       findOverlappingIndex mod_js X START viewport threeSlides 0 = Normal r
       /\ (r = None <->
           forall j, 0 <= j < Z.of_nat (length threeSlides) ->
             hitsAt X threeSlides (getPosition X START viewport) j = false).
Proof.
  split; [split; [discriminate|cbn; lia]|].
  destruct (findOverlappingIndex_nearest_overlap mod_js X START viewport
              threeSlides 0 mod_js_is_modulo
              ltac:(discriminate) ltac:(cbn; lia))
    as (r & Hr & Hnone & _).
  exists r. split; [exact Hr|exact Hnone].
Defined.

End DimensionsProofs.

(** ** Properties of amp-facebook.js *)

Module AmpFacebookProofs.
Import Js AmpFacebook.

Section Handler.

Variable numberToString : float -> string.
Variable tryParseJson : JsValue -> JsValue.
Variable getIframe : AmpElement -> string -> HTMLIFrameElement.
Variable getMode_test : bool.

Local Abbreviation handle :=
  (handleFacebookMessages_ numberToString tryParseJson getMode_test).
Local Abbreviation handleEvents :=
  (handleAll numberToString tryParseJson getMode_test).

(** A string never has an ['action'], whatever it parses to. *)
Lemma handle_string_data (this : AmpFacebook) (from : option Window)
    (s : string) :
  handle this (mkEvent from (JString s)) = Normal this.
Proof.
  unfold handleFacebookMessages_. cbn.
  destruct (match iframe_ this with Some _ => _ | None => _ end);
    [reflexivity|].
  destruct (negb (bool_decide (s = ""))); cbn; [|reflexivity].
  destruct (ToBoolean (tryParseJson (JString s))); reflexivity.
Qed.

Lemma handle_falsy_data (this : AmpFacebook) (event : MessageEvent) :
  ToBoolean (data event) = false -> handle this event = Normal this.
Proof.
  intros Hfalsy. unfold handleFacebookMessages_, getData.
  destruct (match iframe_ this with Some _ => _ | None => _ end);
    [reflexivity|].
  now rewrite Hfalsy.
Qed.

Lemma handle_foreign_source (this : AmpFacebook) (iframe : HTMLIFrameElement)
    (event : MessageEvent) :
  iframe_ this = Some iframe -> source event <> contentWindow iframe ->
  handle this event = Normal this.
Proof.
  intros Hframe Hsource. unfold handleFacebookMessages_. rewrite Hframe.
  rewrite bool_decide_eq_false_2 by exact Hsource. reflexivity.
Qed.

(** The handler returns, and it leaves [iframe_] alone. *)
Lemma handle_keeps_iframe (this : AmpFacebook) (event : MessageEvent) :
  exists this', handle this event = Normal this'
                /\ iframe_ this' = iframe_ this.
Proof.
  unfold handleFacebookMessages_.
  destruct (match iframe_ this with Some _ => _ | None => _ end);
    [eauto|].
  destruct (ToBoolean (getData event)) eqn:Etruthy; cbn; [|eauto].
  destruct (ToBoolean (if isObject _ then _ else _)); cbn; [|eauto].
  destruct (getData event) eqn:Edata; cbn in *; try discriminate;
    try (destruct (looseEqualsString _ _ _)); destruct getMode_test; eauto.
Qed.

Lemma handleAll_app (this : AmpFacebook) (before after : list MessageEvent) :
  handleEvents this (before ++ after)
  = (this' ← handleEvents this before; handleEvents this' after).
Proof.
  revert this. induction before as [|event before IH]; intros this; cbn.
  - reflexivity.
  - destruct (handle this event) as [this'|e]; cbn; [apply IH|reflexivity].
Qed.

Lemma handleAll_keeps_iframe (events : list MessageEvent) :
  forall this, exists this', handleEvents this events = Normal this'
                             /\ iframe_ this' = iframe_ this.
Proof.
  induction events as [|event events IH]; intros this; cbn.
  - eauto.
  - destruct (handle_keeps_iframe this event) as (this1 & -> & E1). cbn.
    destruct (IH this1) as (this2 & -> & E2). exists this2.
    split; [reflexivity|congruence].
Qed.

(** An object that says [action: 'ready'] and comes from the iframe (or
    arrives before there is one) does end the loading state. *)
Lemma handle_ready_object (this : AmpFacebook) (event : MessageEvent) :
  match iframe_ this with
  | Some iframe => source event = contentWindow iframe
  | None => True
  end ->
  data event = readyObject ->
  handle this event
  = Normal (let this := toggleLoading this false in
            if getMode_test
            then set_toggleLoadingCounter_ this (toggleLoadingCounter_ this + 1)
            else this).
Proof.
  intros Hsource Hdata. unfold handleFacebookMessages_, getData.
  rewrite Hdata. destruct (iframe_ this) as [iframe|].
  - rewrite bool_decide_eq_true_2 by exact Hsource. reflexivity.
  - reflexivity.
Qed.

(** *** Delivery to the listeners of an iframe *)

Lemma deliverTo_app (before after : list IframeListener) (from : positive)
    (type : string) (data : JsValue) (this : AmpFacebook) :
  deliverTo before from type data this ≫= deliverTo after from type data
  = deliverTo (before ++ after) from type data this.
Proof.
  revert this. induction before as [|l before IH]; intros this; cbn.
  - reflexivity.
  - destruct (_ && _); [|apply IH].
    destruct (runIframeCallback _ _ _) as [this'|e]; cbn;
      [apply IH|reflexivity].
Qed.

Lemma deliverTo_other_targets (listeners : list IframeListener)
    (from : positive) (type : string) (data : JsValue) (this : AmpFacebook) :
  Forall (fun l => listenTarget l <> from) listeners ->
  deliverTo listeners from type data this = Normal this.
Proof.
  induction 1 as [|l listeners Hl _ IH]; cbn; [reflexivity|].
  now rewrite (bool_decide_eq_false_2 _ Hl).
Qed.

(** *** The attribute check of [layoutCallback] *)

Lemma indexOf_embed_types (v : string) :
  (indexOf ["post"; "video"; "comment"] (JString v) =? -1) = false
  <-> In v ["post"; "video"; "comment"].
Proof.
  unfold indexOf. cbn.
  destruct (decide (v = "post")) as [->|H1]; [cbn; tauto|].
  rewrite (bool_decide_eq_false_2 _ H1).
  destruct (decide (v = "video")) as [->|H2]; [cbn; tauto|].
  rewrite (bool_decide_eq_false_2 _ H2).
  destruct (decide (v = "comment")) as [->|H3]; [cbn; tauto|].
  rewrite (bool_decide_eq_false_2 _ H3). cbn.
  split; [discriminate|]. intros [?|[?|[?|[]]]]; congruence.
Qed.

(** What a successful [layoutCallback] leaves behind. *)
Lemma layoutCallback_normal (this this' : AmpFacebook) :
  layoutCallback getIframe getMode_test this = Normal this' ->
  exists iframe,
    iframe_ this' = Some iframe
    /\ frameId iframe = frameId (getIframe (element this) TYPE)
    /\ connected iframe = true
    /\ In iframe (childNodes (element this'))
    /\ iframeListeners this'
       = iframeListeners this
           ++ [mkIframeListener (frameId iframe) "embed-size"
                 EmbedSizeCallback true]
    /\ baseCalls this' = baseCalls this ++ [ToggleLoading true].
Proof.
  unfold layoutCallback.
  destruct (userAssert _ _) as [[]|e]; cbn; [|discriminate].
  intros [= <-].
  destruct (hasAttribute (element this) "data-allowfullscreen");
    destruct getMode_test; cbn;
    (eexists; split; [reflexivity|]; cbn; repeat split;
     apply in_or_app; right; left; reflexivity).
Qed.

End Handler.

(** C1: after [layoutCallback] the iframe's window is window 7; the
    JSON-encoded ready message from that window, which the parser does turn
    into [{action: 'ready'}], leaves the component as it was, the loading
    indicator still on: [toggleLoading(false)] is not called.  The same
    holds for every parser, every component state and every source, since
    the handler reads ['action'] off the string and not off what it parsed. *)
Theorem ready_json_string_leaves_loading_on :
  parseReadyOnly (JString readyJson) = readyObject
  /\ layoutCallback frame7 true (component "post") = Normal laidOut
  /\ contentWindow <$> iframe_ laidOut = Some (Some 7%positive)
  /\ handleFacebookMessages_ noNumbers parseReadyOnly true laidOut
       (mkEvent (Some 7%positive) (JString readyJson))
     = Normal laidOut
  /\ baseCalls laidOut = [ToggleLoading true]
  /\ forall numberToString tryParseJson getMode_test this from,
       handleFacebookMessages_ numberToString tryParseJson getMode_test this
         (mkEvent from (JString readyJson))
       = Normal this.
Proof.
  repeat split; try reflexivity.
  intros. apply handle_string_data.
Qed.

(** The sibling path: the same message as an object, from the same window,
    does call [toggleLoading(false)]. *)
Lemma ready_object_turns_loading_off :
  baseCalls
    <$> handleFacebookMessages_ noNumbers parseReadyOnly true laidOut
          (mkEvent (Some 7%positive) readyObject)
  = Normal [ToggleLoading true; ToggleLoading false].
Proof. reflexivity. Qed.

(** C5, as stated, fails: with [data-embed-as] present and empty, a value
    that is none of the three, [layoutCallback] raises nothing. *)
Lemma empty_embed_type_is_accepted :
  attributes (embedWith "") !! "data-embed-as" = Some ""
  /\ ~ In "" ["post"; "video"; "comment"]
  /\ exists this, layoutCallback frame7 true (component "") = Normal this.
Proof.
  split; [reflexivity|]. split.
  - intros [?|[?|[?|[]]]]; discriminate.
  - eexists. reflexivity.
Qed.

(** C5 (amended): [layoutCallback] raises a user error exactly when
    [data-embed-as] is present with a value that is non-empty and none of
    'post', 'video', 'comment', and the error names that value; when the
    attribute is absent, empty or one of the three, the call returns with
    the iframe attached. *)
Theorem layoutCallback_validates_embed_type
    (getIframe : AmpElement -> string -> HTMLIFrameElement)
    (getMode_test : bool) (this : AmpFacebook) :
  ((exists e, layoutCallback getIframe getMode_test this = Throw e)
   <-> exists v, attributes (element this) !! "data-embed-as" = Some v
                 /\ v <> "" /\ ~ In v ["post"; "video"; "comment"])
  /\ (forall e, layoutCallback getIframe getMode_test this = Throw e ->
        e = UserError (getAttribute (element this) "data-embed-as"))
  /\ ((exists this' iframe,
         layoutCallback getIframe getMode_test this = Normal this'
         /\ iframe_ this' = Some iframe
         /\ In iframe (childNodes (element this')))
      <-> (attributes (element this) !! "data-embed-as" = None
           \/ attributes (element this) !! "data-embed-as" = Some ""
           \/ exists v, attributes (element this) !! "data-embed-as" = Some v
                        /\ In v ["post"; "video"; "comment"])).
Proof.
  assert (Hcases :
    (exists v, attributes (element this) !! "data-embed-as" = Some v
               /\ v <> "" /\ ~ In v ["post"; "video"; "comment"]
               /\ layoutCallback getIframe getMode_test this
                  = Throw (UserError (JString v))
               /\ getAttribute (element this) "data-embed-as" = JString v)
    \/ ((attributes (element this) !! "data-embed-as" = None
         \/ attributes (element this) !! "data-embed-as" = Some ""
         \/ exists v, attributes (element this) !! "data-embed-as" = Some v
                      /\ In v ["post"; "video"; "comment"])
        /\ exists this', layoutCallback getIframe getMode_test this
                         = Normal this')).
  { unfold layoutCallback, getAttribute.
    destruct (attributes (element this) !! "data-embed-as") as [v|] eqn:E;
      cbv beta iota zeta.
    - destruct (decide (v = "")) as [->|Hne].
      + right. split; [auto|]. cbn. eexists. reflexivity.
      + destruct (indexOf ["post"; "video"; "comment"] (JString v) =? -1)
          eqn:Ei.
        * left. exists v. repeat split; try assumption.
          -- intros Hin. apply indexOf_embed_types in Hin. congruence.
          -- cbn [ToBoolean]. rewrite (bool_decide_eq_false_2 _ Hne).
             reflexivity.
        * right. split.
          -- right. right. exists v. split; [reflexivity|].
             now apply indexOf_embed_types.
          -- cbn [negb]. rewrite orb_true_r. cbn. eexists. reflexivity.
    - right. split; [auto|]. cbn. eexists. reflexivity. }
  split; [|split].
  - split.
    + intros [e He]. destruct Hcases as [(v & ? & ? & ? & _)|[_ [this' H']]].
      * eauto.
      * congruence.
    + intros (v & Hv & Hne & Hnin).
      destruct Hcases as [(v' & ? & ? & ? & ? & _)|[Hok _]]; [eauto|].
      destruct Hok as [?|[?|(v' & ? & ?)]]; congruence.
  - intros e He.
    destruct Hcases as [(v & _ & _ & _ & Hthrow & ->)|[_ [this' H']]];
      congruence.
  - split.
    + intros (this' & iframe & Hnormal & _).
      destruct Hcases as [(v & _ & _ & _ & ? & _)|[Hok _]];
        [congruence|exact Hok].
    + intros Hok. destruct Hcases as [(v & Hv & Hne & Hnin & _)|[_ [this' H']]].
      * destruct Hok as [?|[?|(v' & ? & ?)]]; congruence.
      * destruct (layoutCallback_normal _ _ _ _ H')
          as (iframe & ? & _ & _ & ? & _).
        exists this', iframe. auto.
Qed.

(** C6: an event whose data is [null] or [undefined], or a string that the
    parser rejects (a failed parse gives a falsy value), leaves the
    component exactly as it was: no [toggleLoading], no counter change. *)
Theorem malformed_message_changes_nothing
    (numberToString : float -> string) (tryParseJson : JsValue -> JsValue)
    (getMode_test : bool) (this : AmpFacebook) (event : MessageEvent) :
  (data event = JNull
   \/ data event = JUndefined
   \/ exists s, data event = JString s
                /\ ToBoolean (tryParseJson (JString s)) = false) ->
  handleFacebookMessages_ numberToString tryParseJson getMode_test this event
  = Normal this.
Proof.
  intros [Hd|[Hd|(s & Hd & _)]].
  - apply handle_falsy_data. now rewrite Hd.
  - apply handle_falsy_data. now rewrite Hd.
  - destruct event as [from d]. cbn in Hd. subst d. apply handle_string_data.
Qed.

Lemma malformed_message_changes_nothing_witness :
  ToBoolean (parseReadyOnly (JString "ready?")) = false
  /\ handleFacebookMessages_ noNumbers parseReadyOnly true laidOut
       (mkEvent (Some 7%positive) (JString "ready?"))
     = Normal laidOut.
Proof.
  split; [reflexivity|].
  apply (malformed_message_changes_nothing noNumbers parseReadyOnly true
           laidOut (mkEvent (Some 7%positive) (JString "ready?"))).
  right. right. exists "ready?". split; reflexivity.
Defined.

(** C8: after a [layoutCallback] that returned, on an iframe that had no
    listener yet, an ['embed-size'] message from the attached iframe runs
    the registered listener, which calls
    [forceChangeHeight(data['height'])] and nothing else. *)
Theorem embed_size_message_resizes
    (getIframe : AmpElement -> string -> HTMLIFrameElement)
    (getMode_test : bool) (this this' : AmpFacebook) (data : JsValue) :
  Forall (fun l => listenTarget l <> frameId (getIframe (element this) TYPE))
    (iframeListeners this) ->
  layoutCallback getIframe getMode_test this = Normal this' ->
  exists iframe,
    iframe_ this' = Some iframe
    /\ In iframe (childNodes (element this'))
    /\ In (mkIframeListener (frameId iframe) "embed-size" EmbedSizeCallback
             true)
         (iframeListeners this')
    /\ receiveIframeMessage this' iframe "embed-size" data
       = (newHeight ← getProp data "height";
          Normal (forceChangeHeight this' newHeight))
    /\ forall newHeight, getProp data "height" = Normal newHeight ->
         baseCalls <$> receiveIframeMessage this' iframe "embed-size" data
         = Normal (baseCalls this' ++ [ForceChangeHeight newHeight]).
Proof.
  intros Hfresh Hlayout.
  destruct (layoutCallback_normal _ _ _ _ Hlayout)
    as (iframe & Hframe & Hid & _ & Hchild & Hlisteners & _).
  exists iframe. split; [exact Hframe|]. split; [exact Hchild|]. split.
  { rewrite Hlisteners. apply in_or_app. right. left. reflexivity. }
  assert (Hrun : receiveIframeMessage this' iframe "embed-size" data
                 = (newHeight ← getProp data "height";
                    Normal (forceChangeHeight this' newHeight))).
  { unfold receiveIframeMessage. rewrite Hlisteners, <- deliverTo_app.
    rewrite deliverTo_other_targets by (now rewrite Hid).
    cbn. rewrite bool_decide_eq_true_2 by reflexivity. cbn.
    unfold embedSizeCallback. destruct (getProp data "height"); reflexivity. }
  split; [exact Hrun|].
  intros newHeight Hheight. rewrite Hrun, Hheight. reflexivity.
Qed.

Lemma embed_size_message_resizes_witness :
  exists iframe,
    iframe_ laidOut = Some iframe
    /\ In iframe (childNodes (element laidOut))
    /\ In (mkIframeListener (frameId iframe) "embed-size" EmbedSizeCallback
             true)
         (iframeListeners laidOut)
    /\ receiveIframeMessage laidOut iframe "embed-size"
         (JObject [("height", JNumber 300)])
       = (newHeight ← getProp (JObject [("height", JNumber 300)]) "height";
          Normal (forceChangeHeight laidOut newHeight))
    /\ forall newHeight,
         getProp (JObject [("height", JNumber 300)]) "height"
         = Normal newHeight ->
         baseCalls
           <$> receiveIframeMessage laidOut iframe "embed-size"
                 (JObject [("height", JNumber 300)])
         = Normal (baseCalls laidOut ++ [ForceChangeHeight newHeight]).
Proof.
  apply (embed_size_message_resizes frame7 true (component "post") laidOut
           (JObject [("height", JNumber 300)])).
  - constructor.
  - reflexivity.
Defined.

(** C10: while [iframe_] is set, a message whose source is not the
    iframe's window leaves the component exactly as it was, and two runs of
    messages that differ only in such a message end in the same state. *)
Theorem foreign_messages_are_ignored
    (numberToString : float -> string) (tryParseJson : JsValue -> JsValue)
    (getMode_test : bool) (this : AmpFacebook) (iframe : HTMLIFrameElement)
    (event : MessageEvent) :
  iframe_ this = Some iframe ->
  source event <> contentWindow iframe ->
  handleFacebookMessages_ numberToString tryParseJson getMode_test this event
  = Normal this
  /\ forall before after,
       handleAll numberToString tryParseJson getMode_test this
         (before ++ event :: after)
       = handleAll numberToString tryParseJson getMode_test this
           (before ++ after).
Proof.
  intros Hframe Hsource. split.
  - now apply (handle_foreign_source _ _ _ _ iframe).
  - intros before after. rewrite !handleAll_app.
    destruct (handleAll_keeps_iframe numberToString tryParseJson getMode_test
                before this) as (this1 & -> & Hsame).
    cbn. rewrite (handle_foreign_source _ _ _ this1 iframe); [reflexivity| |];
      congruence.
Qed.

Lemma foreign_messages_are_ignored_witness :
  handleFacebookMessages_ noNumbers parseReadyOnly true laidOut
    (mkEvent (Some 8%positive) readyObject)
  = Normal laidOut
  /\ forall before after,
       handleAll noNumbers parseReadyOnly true laidOut
         (before ++ mkEvent (Some 8%positive) readyObject :: after)
       = handleAll noNumbers parseReadyOnly true laidOut (before ++ after).
Proof.
  apply (foreign_messages_are_ignored noNumbers parseReadyOnly true laidOut
           (setConnected (applyFillContent (setTitle (frame7 (embedWith "post") TYPE) "Facebook")) true)).
  - reflexivity.
  - cbn. discriminate.
Defined.

End AmpFacebookProofs.

(** ** More order facts on binary64 *)

Module FloatOrderMore.

Ltac compare_cases :=
  repeat match goal with
         | |- context [PosDef.Pos.compare_cont Eq ?a ?b] =>
             change (PosDef.Pos.compare_cont Eq a b) with (Pos.compare a b)
         | |- context [Z.compare ?a ?b] => destruct (Z.compare_spec a b)
         | |- context [Pos.compare ?a ?b] => destruct (Pos.compare_spec a b)
         end.

Ltac by_cases_on_floats a b c :=
  unfold SFleb, SFltb;
  destruct a as [[]|[]| |[] ? ?], b as [[]|[]| |[] ? ?], c as [[]|[]| |[] ? ?];
  cbn; try discriminate; try reflexivity;
  compare_cases; cbn; try discriminate; try reflexivity; try lia.

Lemma SFleb_ltb_trans (a b c : spec_float) :
  SFleb a b = true -> SFltb b c = true -> SFltb a c = true.
Proof. by_cases_on_floats a b c. Qed.

Lemma SFltb_leb_trans (a b c : spec_float) :
  SFltb a b = true -> SFleb b c = true -> SFltb a c = true.
Proof. by_cases_on_floats a b c. Qed.

Lemma SFleb_trans (a b c : spec_float) :
  SFleb a b = true -> SFleb b c = true -> SFleb a c = true.
Proof. by_cases_on_floats a b c. Qed.

Lemma leb_ltb_trans (a b c : float) :
  (a <=? b)%float = true -> (b <? c)%float = true -> (a <? c)%float = true.
Proof. rewrite leb_spec, !ltb_spec. apply SFleb_ltb_trans. Qed.

Lemma ltb_leb_trans (a b c : float) :
  (a <? b)%float = true -> (b <=? c)%float = true -> (a <? c)%float = true.
Proof. rewrite leb_spec, !ltb_spec. apply SFltb_leb_trans. Qed.

Lemma leb_trans (a b c : float) :
  (a <=? b)%float = true -> (b <=? c)%float = true -> (a <=? c)%float = true.
Proof. rewrite !leb_spec. apply SFleb_trans. Qed.

(** A number below another one is not NaN: it equals itself. *)
Lemma eqb_refl_of_ltb (x y : float) :
  (x <? y)%float = true -> (x =? x)%float = true.
Proof.
  rewrite ltb_spec, FloatAxioms.eqb_spec. unfold SFltb, SFeqb.
  destruct (Prim2SF x) as [[]|[]| |[] m e], (Prim2SF y) as [[]|[]| |[] m' e'];
    cbn; try discriminate; try reflexivity; intros _;
    rewrite Z.compare_refl, ?Pos.compare_cont_refl, ?Pos.compare_refl;
    reflexivity.
Qed.

(** Nothing is both below a number and at least that number. *)
Lemma ltb_leb_exclusive (a b : float) :
  (a <? b)%float = true -> (b <=? a)%float = true -> False.
Proof.
  intros Hlt Hle. pose proof (ltb_leb_trans _ _ _ Hlt Hle) as Hself.
  rewrite FloatOrder.ltb_irrefl in Hself. discriminate.
Qed.

End FloatOrderMore.

(** ** Further properties of dimensions.js *)

Module DimensionsExtra.
Import Js Dimensions.

(** *** The overlap test *)

(** X1: an element that overlaps a position has positive extent along the
    axis, and the position is a number: elements with end <= start, and a
    NaN position or edge, overlap nothing. *)
Theorem overlaps_needs_positive_extent
    (axis : Axis) (el : Element) (position : float) :
  overlaps axis el position = true ->
  (start (getDimension axis el) <? end_ (getDimension axis el))%float = true
  /\ (position =? position)%float = true.
Proof.
  unfold overlaps. intros [Hle Hlt]%andb_true_iff. split.
  - exact (FloatOrderMore.leb_ltb_trans _ _ _ Hle Hlt).
  - exact (FloatOrderMore.eqb_refl_of_ltb _ _ Hlt).
Qed.

Lemma overlaps_needs_positive_extent_witness :
  overlaps X slide 3 = true
  /\ (start (getDimension X slide) <? end_ (getDimension X slide))%float = true
  /\ (3 =? 3)%float = true.
Proof.
  split; [reflexivity|].
  apply (overlaps_needs_positive_extent X slide 3). reflexivity.
Defined.

(** X2: when one element ends no later than another starts, no position
    overlaps both; in particular the edge shared by two adjacent elements
    belongs to the second one only. *)
Theorem disjoint_elements_share_no_position
    (axis : Axis) (a b : Element) (position : float) :
  (end_ (getDimension axis a) <=? start (getDimension axis b))%float = true ->
  overlaps axis a position && overlaps axis b position = false.
Proof.
  intros Hab. apply not_true_is_false.
  intros [[_ Ha]%andb_true_iff [Hb _]%andb_true_iff]%andb_true_iff.
  pose proof (FloatOrderMore.ltb_leb_trans _ _ _ Ha Hab) as Hlt.
  exact (FloatOrderMore.ltb_leb_exclusive _ _ Hlt Hb).
Qed.

Lemma disjoint_elements_share_no_position_witness :
  (end_ (getDimension X (slideAt 0 10))
   <=? start (getDimension X (slideAt 10 20)))%float = true
  /\ overlaps X (slideAt 0 10) 10 && overlaps X (slideAt 10 20) 10 = false.
Proof.
  split; [reflexivity|].
  apply (disjoint_elements_share_no_position X (slideAt 0 10) (slideAt 10 20)).
  reflexivity.
Defined.

(** In a tiled row, a position before the end of the first slide overlaps
    none of the later slides. *)
Lemma tiled_later_slides_miss (axis : Axis) (position : float)
    (rest : list Element) :
  forall a, tiled axis (a :: rest) = true ->
  (position <? end_ (getDimension axis a))%float = true ->
  Forall (fun el => overlaps axis el position = false) rest.
Proof.
  induction rest as [|b rest IH]; intros a Htiled Hlt; [constructor|].
  cbn [tiled] in Htiled.
  apply andb_true_iff in Htiled as [[_ Hab]%andb_true_iff Hrest].
  pose proof (FloatOrderMore.ltb_leb_trans _ _ _ Hlt Hab) as Hbefore.
  pose proof Hrest as Hrest'. cbn [tiled] in Hrest'.
  apply andb_true_iff in Hrest' as [[Hb _]%andb_true_iff _].
  constructor.
  - unfold overlaps. apply not_true_is_false.
    intros [Hle _]%andb_true_iff.
    exact (FloatOrderMore.ltb_leb_exclusive _ _ Hbefore Hle).
  - apply (IH b Hrest).
    exact (FloatOrderMore.ltb_leb_trans _ _ _ Hbefore Hb).
Qed.

Lemma tiled_one_hit_nat (axis : Axis) (position : float)
    (children : list Element) :
  tiled axis children = true ->
  forall (i j : nat) (a b : Element),
    children !! i = Some a -> children !! j = Some b ->
    overlaps axis a position = true -> overlaps axis b position = true ->
    i = j.
Proof.
  induction children as [|c children IH]; intros Htiled i j a b Hi Hj Ha Hb.
  - rewrite lookup_nil in Hi. discriminate.
  - assert (Hlater : forall el k, children !! k = Some el ->
              overlaps axis c position = true ->
              overlaps axis el position = true -> False).
    { intros el k Hk Hc Hel.
      apply andb_true_iff in Hc as [_ Hlt].
      pose proof (tiled_later_slides_miss axis position children c Htiled Hlt)
        as Hmiss.
      rewrite Forall_forall in Hmiss.
      rewrite (Hmiss el) in Hel; [discriminate|].
      apply list_elem_of_lookup. eauto. }
    destruct i as [|i], j as [|j]; cbn in Hi, Hj.
    + reflexivity.
    + injection Hi as ->. exfalso. eauto.
    + injection Hj as ->. exfalso. eauto.
    + f_equal. apply (IH ltac:(cbn [tiled] in Htiled;
                              apply andb_true_iff in Htiled; tauto)
                       i j a b); assumption.
Qed.

Lemma tiled_one_hit (axis : Axis) (children : list Element)
    (position : float) (i j : Z) :
  tiled axis children = true ->
  hitsAt axis children position i = true ->
  hitsAt axis children position j = true ->
  i = j.
Proof.
  unfold hitsAt, nthChild. intros Htiled Hi Hj.
  destruct (Z.ltb_spec i 0); [discriminate|].
  destruct (Z.ltb_spec j 0); [discriminate|].
  destruct (children !! Z.to_nat i) as [a|] eqn:Ei; [|discriminate].
  destruct (children !! Z.to_nat j) as [b|] eqn:Ej; [|discriminate].
  pose proof (tiled_one_hit_nat axis position children Htiled _ _ a b
                Ei Ej Hi Hj).
  lia.
Qed.

(** X3: in a tiled row of slides (none ends before it starts, each ends no
    later than the next starts) at most one slide overlaps any position. *)
Theorem tiled_slides_overlap_at_most_once
    (axis : Axis) (children : list Element) (position : float) (i j : Z) :
  tiled axis children = true ->
  hitsAt axis children position i = true ->
  hitsAt axis children position j = true ->
  i = j.
Proof. apply tiled_one_hit. Qed.

Lemma tiled_slides_overlap_at_most_once_witness :
  tiled X threeSlides = true
  /\ hitsAt X threeSlides 10 1 = true
  /\ 1 = 1.
Proof.
  split; [reflexivity|]. split; [reflexivity|].
  apply (tiled_slides_overlap_at_most_once X threeSlides 10 1 1);
    reflexivity.
Defined.

(** *** The search *)

(** X4: outside the array there is no child to measure: with a start index
    below 0 or at or beyond the length (every index, when the array is
    empty) [findOverlappingIndex] throws a TypeError. *)
Theorem findOverlappingIndex_throws_outside_the_array
    (mod_ : Z -> Z -> Z) (axis : Axis) (alignment : Alignment)
    (container : Element) (children : list Element) (startIndex : Z) :
  startIndex < 0 \/ Z.of_nat (length children) <= startIndex ->
  findOverlappingIndex mod_ axis alignment container children startIndex
  = Throw TypeError.
Proof.
  intros Hout. unfold findOverlappingIndex, overlapsAt, nthChild.
  destruct (Z.ltb_spec startIndex 0); [reflexivity|].
  rewrite (proj2 (lookup_ge_None children (Z.to_nat startIndex)));
    [reflexivity|lia].
Qed.

Lemma findOverlappingIndex_throws_outside_the_array_witness :
  findOverlappingIndex mod_js X CENTER viewport [] 0 = Throw TypeError.
Proof.
  apply (findOverlappingIndex_throws_outside_the_array mod_js X CENTER
           viewport [] 0).
  right. cbn. lia.
Defined.

(** What the search returns is an overlapping child, and nothing only if
    there is none. *)
Lemma findOverlappingIndex_hit_or_none
    (mod_ : Z -> Z -> Z) (axis : Axis) (alignment : Alignment)
    (container : Element) (children : list Element) (startIndex : Z) :
  (forall a b, 0 < b -> mod_ a b = a mod b) ->
  0 <= startIndex < Z.of_nat (length children) ->
  exists r,
    findOverlappingIndex mod_ axis alignment container children startIndex
    = Normal r
    /\ match r with
       | None =>
           forall j, 0 <= j < Z.of_nat (length children) ->
             hitsAt axis children (getPosition axis alignment container) j
             = false
       | Some k =>
           hitsAt axis children (getPosition axis alignment container) k
           = true
       end.
Proof.
  intros Hmod Hs.
  set (n := Z.of_nat (length children)) in *.
  set (pos := getPosition axis alignment container).
  destruct (DimensionsProofs.findOverlappingIndex_outwards mod_ Hmod axis
              children startIndex pos Hs alignment container eq_refl)
    as (r & Hr & Hspec).
  exists r. split; [exact Hr|]. destruct r as [k|].
  - destruct Hspec as (d & Hd & _ & Hfound).
    destruct Hfound as [(Hhit & ->)|(_ & Hhit & ->)]; exact Hhit.
  - intros j Hj.
    destruct (DimensionsProofs.index_at_circularDistance n startIndex j Hs Hj)
      as (Hd & Hwhere).
    destruct (Hspec _ Hd) as [Hf Hb]. fold n in Hf, Hb.
    destruct Hwhere as [E|E]; rewrite <- E in *; assumption.
Qed.

(** X5: in a tiled row of slides the start index only decides where the
    search begins, not what it finds: from every valid start index
    [findOverlappingIndex] returns the same result, the one overlapping
    slide or [undefined]. *)
Theorem findOverlappingIndex_same_from_every_start
    (mod_ : Z -> Z -> Z) (axis : Axis) (alignment : Alignment)
    (container : Element) (children : list Element) (start1 start2 : Z) :
  (forall a b, 0 < b -> mod_ a b = a mod b) ->
  tiled axis children = true ->
  0 <= start1 < Z.of_nat (length children) ->
  0 <= start2 < Z.of_nat (length children) ->
  findOverlappingIndex mod_ axis alignment container children start1
  = findOverlappingIndex mod_ axis alignment container children start2.
Proof.
  intros Hmod Htiled H1 H2.
  destruct (findOverlappingIndex_hit_or_none mod_ axis alignment container
              children start1 Hmod H1) as (r1 & -> & Hr1).
  destruct (findOverlappingIndex_hit_or_none mod_ axis alignment container
              children start2 Hmod H2) as (r2 & -> & Hr2).
  f_equal.
  assert (Hrange : forall k pos, hitsAt axis children pos k = true ->
            0 <= k < Z.of_nat (length children)).
  { intros k pos. unfold hitsAt, nthChild.
    destruct (Z.ltb_spec k 0); [discriminate|].
    destruct (children !! Z.to_nat k) eqn:E; [|discriminate].
    apply lookup_lt_Some in E. lia. }
  destruct r1 as [k1|], r2 as [k2|].
  - f_equal. exact (tiled_one_hit axis children _ k1 k2 Htiled Hr1 Hr2).
  - rewrite (Hr2 k1 (Hrange _ _ Hr1)) in Hr1. discriminate.
  - rewrite (Hr1 k2 (Hrange _ _ Hr2)) in Hr2. discriminate.
  - reflexivity.
Qed.

Lemma findOverlappingIndex_same_from_every_start_witness :
  findOverlappingIndex mod_js X START viewport threeSlides 0
  = findOverlappingIndex mod_js X START viewport threeSlides 2.
Proof.
  apply (findOverlappingIndex_same_from_every_start mod_js X START viewport
           threeSlides 0 2 DimensionsProofs.mod_js_is_modulo);
    [reflexivity|cbn; lia|cbn; lia].
Defined.

(** *** Scrolling *)


(** *** The two axes *)

Lemma overlapsAt_transpose (axis : Axis) (children : list Element) (i : Z)
    (pos : float) :
  overlapsAt axis children i pos
  = overlapsAt (otherAxis axis) (transpose <$> children) i pos.
Proof.
  unfold overlapsAt, nthChild. destruct (i <? 0); [reflexivity|].
  rewrite list_lookup_fmap.
  destruct (children !! Z.to_nat i); [|reflexivity].
  destruct axis; reflexivity.
Qed.

(** X7: the search and the scrolling treat the axes alike as well: along
    one axis they do what they do along the other axis on the transposed
    elements, and transposing twice gives the element back. *)
Theorem search_and_scroll_treat_axes_alike
    (mod_ : Z -> Z -> Z) (axis : Axis) (alignment : Alignment)
    (container el : Element) (children : list Element) (startIndex : Z)
    (offset : option float) (delta : float) :
  findOverlappingIndex mod_ axis alignment container children startIndex
  = findOverlappingIndex mod_ (otherAxis axis) alignment
      (transpose container) (transpose <$> children) startIndex
  /\ transpose (updateScrollPosition axis el delta)
     = updateScrollPosition (otherAxis axis) (transpose el) delta
  /\ transpose (scrollContainerToElement axis alignment container el offset)
     = scrollContainerToElement (otherAxis axis) alignment
         (transpose container) (transpose el) offset
  /\ transpose (transpose el) = el.
Proof.
  split; [|destruct axis, alignment, el as [[]]; repeat split].
  unfold findOverlappingIndex.
  replace (getPosition (otherAxis axis) alignment (transpose container))
    with (getPosition axis alignment container)
    by (destruct axis, alignment; reflexivity).
  rewrite <- overlapsAt_transpose. rewrite length_fmap.
  destruct (overlapsAt axis children startIndex _) as [[]|]; cbn;
    [reflexivity| |reflexivity].
  generalize 1.
  induction (Z.to_nat (Z.of_nat (length children) / 2)) as [|remaining IH];
    intros i; cbn [findOverlappingLoop]; [reflexivity|].
  rewrite length_fmap, <- !overlapsAt_transpose.
  destruct (overlapsAt axis children (mod_ (startIndex + i) _) _) as [[]|];
    cbn; [reflexivity| |reflexivity].
  destruct (overlapsAt axis children (mod_ (startIndex - i) _) _) as [[]|];
    cbn; [reflexivity| |reflexivity].
  apply IH.
Qed.

End DimensionsExtra.

(** ** Further properties of amp-facebook.js *)

Module AmpFacebookExtra.
Import Js AmpFacebook.

Section Extra.

Variable numberToString : float -> string.
Variable tryParseJson : JsValue -> JsValue.
Variable getIframe : AmpElement -> string -> HTMLIFrameElement.
Variable dashToUnderline : string -> string.
Variable navigatorLanguage : string.
Variable getMode_test : bool.

Local Abbreviation handle :=
  (handleFacebookMessages_ numberToString tryParseJson getMode_test).
Local Abbreviation layout := (layoutCallback getIframe getMode_test).
Local Abbreviation call :=
  (hostCall numberToString tryParseJson getIframe getMode_test).
Local Abbreviation calls :=
  (hostCalls numberToString tryParseJson getIframe getMode_test).
Local Abbreviation counterInStep := (AmpFacebook.counterInStep getMode_test).

(** *** The message handler *)

Lemma handle_outcome (this : AmpFacebook) (event : MessageEvent) :
  handle this event
  = Normal (if fromOwnIframe this event
               && saysReady numberToString (data event)
            then loadingEnded getMode_test this
            else this).
Proof.
  unfold handleFacebookMessages_, fromOwnIframe, getData, loadingEnded.
  destruct (iframe_ this) as [iframe|];
    [destruct (bool_decide (source event = contentWindow iframe))|];
    cbn [negb andb]; try reflexivity;
    (destruct (data event) as [| |b|n|s|items|props]; cbn;
     repeat first
       [ reflexivity
       | match goal with
         | |- context [if ?c then _ else _] => destruct c; cbn
         end ]).
Qed.

(** *** Counting the loading toggles *)

Lemma countToggles_snoc (done : list BaseCall) (c : BaseCall) :
  countToggles (done ++ [c])
  = countToggles done + (if isToggleLoading c then 1 else 0).
Proof.
  unfold countToggles. induction done as [|c' done IH]; cbn.
  - destruct (isToggleLoading c); reflexivity.
  - destruct (isToggleLoading c'); cbn [length]; lia.
Qed.

Lemma loadingEnded_counterInStep (this : AmpFacebook) :
  counterInStep this -> counterInStep (loadingEnded getMode_test this).
Proof.
  unfold AmpFacebook.counterInStep, loadingEnded. intros H.
  destruct getMode_test; cbn; [|exact H].
  rewrite countToggles_snoc, H. reflexivity.
Qed.

Lemma layout_fields (this this' : AmpFacebook) :
  layout this = Normal this' ->
  exists iframe,
    this'
    = {| element :=
           {| attributes := attributes (element this);
              title := title (element this);
              childNodes := childNodes (element this) ++ [iframe] |};
         iframe_ := Some iframe;
         dataLocale_ := dataLocale_ this;
         unlistenMessage_ :=
           Some (mkWindowListener "message" BoundHandleFacebookMessages);
         toggleLoadingCounter_ :=
           if getMode_test then toggleLoadingCounter_ this + 1
           else toggleLoadingCounter_ this;
         baseCalls := baseCalls this ++ [ToggleLoading true];
         windowListeners :=
           windowListeners this
             ++ [mkWindowListener "message" BoundHandleFacebookMessages];
         iframeListeners :=
           iframeListeners this
             ++ [mkIframeListener (frameId iframe) "embed-size"
                   EmbedSizeCallback true] |}
    /\ frameId iframe = frameId (getIframe (element this) TYPE)
    /\ connected iframe = true
    /\ fillContent iframe = true
    /\ iframeTitle iframe
       = (if bool_decide (title (element this) = "") then "Facebook"
          else title (element this))
    /\ iframeAttributes iframe
       = (if hasAttribute (element this) "data-allowfullscreen"
          then <["allowfullscreen" := "true"]>
                 (iframeAttributes (getIframe (element this) TYPE))
          else iframeAttributes (getIframe (element this) TYPE)).
Proof.
  unfold layoutCallback.
  destruct (userAssert _ _) as [[]|e]; cbn; [|discriminate].
  intros [= <-].
  set (titled := applyFillContent
                   (setTitle (getIframe (element this) TYPE)
                      (if bool_decide (title (element this) = "")
                       then "Facebook" else title (element this)))).
  exists (setConnected
            (if hasAttribute (element this) "data-allowfullscreen"
             then setAttribute titled "allowfullscreen" "true"
             else titled) true).
  destruct (hasAttribute (element this) "data-allowfullscreen");
    destruct getMode_test; cbn; repeat split.
Qed.

Lemma call_keeps (this this' : AmpFacebook) (c : HostCall) :
  call this c = Normal this' ->
  dataLocale_ this' = dataLocale_ this
  /\ attributes (element this') = attributes (element this)
  /\ title (element this') = title (element this)
  /\ (counterInStep this -> counterInStep this').
Proof.
  destruct c as [| |event|data]; cbn [hostCall].
  - intros (iframe & -> & _)%layout_fields. cbn.
    repeat split. unfold AmpFacebook.counterInStep. cbn. intros H.
    destruct getMode_test; [|exact H].
    rewrite countToggles_snoc, H. reflexivity.
  - intros [= <-]. unfold unlayoutCallback, AmpFacebook.counterInStep.
    destruct (iframe_ this); cbn; destruct (unlistenMessage_ this); cbn;
      repeat split; auto.
  - rewrite handle_outcome. intros [= <-].
    destruct (_ && _); [|repeat split; auto].
    repeat split; try (unfold loadingEnded; destruct getMode_test;
                       reflexivity).
    apply loadingEnded_counterInStep.
  - unfold embedSizeCallback.
    destruct (getProp data "height") as [h|e]; cbn; [|discriminate].
    intros [= <-]. repeat split. unfold AmpFacebook.counterInStep. cbn.
    rewrite countToggles_snoc. cbn. rewrite Z.add_0_r. auto.
Qed.

Lemma calls_keep (cs : list HostCall) :
  forall this this',
    calls this cs = Normal this' ->
    dataLocale_ this' = dataLocale_ this
    /\ attributes (element this') = attributes (element this)
    /\ title (element this') = title (element this)
    /\ (counterInStep this -> counterInStep this').
Proof.
  induction cs as [|c cs IH]; intros this this'; cbn [hostCalls].
  - intros [= <-]. auto.
  - destruct (call this c) as [this1|e] eqn:E1; cbn; [|discriminate].
    intros Hrest.
    destruct (call_keeps _ _ _ E1) as (L1 & A1 & T1 & C1).
    destruct (IH _ _ Hrest) as (L2 & A2 & T2 & C2).
    repeat split; try congruence. auto.
Qed.

End Extra.

Lemma laidOut_is_laid_out :
  layoutCallback frame7 true (component "post") = Normal laidOut.
Proof. vm_compute. reflexivity. Qed.

Lemma layout_call_gives_laidOut :
  hostCalls noNumbers parseReadyOnly frame7 true (component "post")
    [CallLayout] = Normal laidOut.
Proof. cbn [hostCalls hostCall]. now rewrite laidOut_is_laid_out. Qed.


(** X9: whatever the host calls on a freshly constructed component
    (layout, unlayout, messages, embed-size messages, in any order), as
    long as no call throws, the counter stands at the number of
    [toggleLoading] calls made so far in test mode and at 0 otherwise. *)
Theorem counter_counts_loading_toggles
    (numberToString : float -> string) (tryParseJson : JsValue -> JsValue)
    (getIframe : AmpElement -> string -> HTMLIFrameElement)
    (dashToUnderline : string -> string) (navigatorLanguage : string)
    (getMode_test : bool) (element : AmpElement) (calls : list HostCall)
    (this : AmpFacebook) :
  hostCalls numberToString tryParseJson getIframe getMode_test
    (constructor dashToUnderline navigatorLanguage element) calls
  = Normal this ->
  toggleLoadingCounter_ this
  = if getMode_test then countToggles (baseCalls this) else 0.
Proof.
  intros Hrun.
  destruct (calls_keep numberToString tryParseJson getIframe getMode_test
              calls _ _ Hrun) as (_ & _ & _ & Hcount).
  apply Hcount. unfold counterInStep. cbn. destruct getMode_test; reflexivity.
Qed.

Lemma counter_counts_loading_toggles_witness :
  hostCalls noNumbers parseReadyOnly frame7 true (component "post")
    [CallLayout] = Normal laidOut
  /\ toggleLoadingCounter_ laidOut = countToggles (baseCalls laidOut).
Proof.
  split; [exact layout_call_gives_laidOut|].
  exact (counter_counts_loading_toggles noNumbers parseReadyOnly frame7 id
           "en-US" true (embedWith "post") [CallLayout] laidOut
           layout_call_gives_laidOut).
Defined.

Example counter_after_a_whole_handshake :
  (fun this => (toggleLoadingCounter_ this, baseCalls this))
    <$> hostCalls noNumbers parseReadyOnly frame7 true (component "post")
          [CallLayout;
           CallEmbedSize (JObject [("height", JNumber 300)]);
           CallMessage (mkEvent (Some 7%positive) readyObject);
           CallUnlayout]
  = Normal (2, [ToggleLoading true; ForceChangeHeight (JNumber 300);
                ToggleLoading false]).
Proof. vm_compute. reflexivity. Qed.

(** X10: the locale is fixed at construction.  At every later point of the
    component's life [preconnectCallback] preloads the SDK of the
    [data-locale] attribute if the element had one, and of
    [dashToUnderline(navigator.language)] otherwise. *)
Theorem preconnect_uses_the_locale_of_construction
    (numberToString : float -> string) (tryParseJson : JsValue -> JsValue)
    (getIframe : AmpElement -> string -> HTMLIFrameElement)
    (dashToUnderline : string -> string) (navigatorLanguage : string)
    (getMode_test : bool) (element : AmpElement) (calls : list HostCall)
    (this : AmpFacebook) (opt_onLayout : JsValue) :
  hostCalls numberToString tryParseJson getIframe getMode_test
    (constructor dashToUnderline navigatorLanguage element) calls
  = Normal this ->
  preconnectCallback this opt_onLayout
  = [PreconnectUrl "https://facebook.com" opt_onLayout;
     Preload
       ("https://connect.facebook.net/"
        +:+ match attributes element !! "data-locale" with
            | Some locale => locale
            | None => dashToUnderline navigatorLanguage
            end
        +:+ "/sdk.js")
       "script";
     PreloadBootstrap "facebook"].
Proof.
  intros Hrun.
  destruct (calls_keep numberToString tryParseJson getIframe getMode_test
              calls _ _ Hrun) as (Hlocale & _).
  unfold preconnectCallback. rewrite Hlocale. cbn. unfold hasAttribute.
  destruct (attributes element !! "data-locale") as [locale|]; reflexivity.
Qed.

Lemma preconnect_uses_the_locale_of_construction_witness :
  preconnectCallback laidOut JUndefined
  = [PreconnectUrl "https://facebook.com" JUndefined;
     Preload "https://connect.facebook.net/en-US/sdk.js" "script";
     PreloadBootstrap "facebook"].
Proof.
  apply (preconnect_uses_the_locale_of_construction noNumbers parseReadyOnly
           frame7 id "en-US" true (embedWith "post") [CallLayout] laidOut
           JUndefined).
  exact layout_call_gives_laidOut.
Defined.

(** X11: [unlayoutCallback] always leaves the component without iframe,
    doing it twice is the same as doing it once, and on a component that
    was never laid out it changes nothing. *)
Theorem unlayoutCallback_is_idempotent
    (dashToUnderline : string -> string) (navigatorLanguage : string)
    (element : AmpElement) (this : AmpFacebook) :
  iframe_ (unlayoutCallback this) = None
  /\ unlayoutCallback (unlayoutCallback this) = unlayoutCallback this
  /\ unlayoutCallback (constructor dashToUnderline navigatorLanguage element)
     = constructor dashToUnderline navigatorLanguage element.
Proof.
  split; [|split; [|reflexivity]].
  - unfold unlayoutCallback.
    destruct (iframe_ this) eqn:E; cbn;
      destruct (unlistenMessage_ this); cbn; auto.
  - unfold unlayoutCallback.
    destruct (iframe_ this) eqn:E, (unlistenMessage_ this) eqn:U;
      unfold unlisten, removeElement, set_windowListeners, set_iframe_,
        set_element;
      cbn; rewrite ?E; cbn; rewrite ?U; cbn;
      try reflexivity; f_equal; apply list_filter_filter_l; auto.
Qed.

(** X12: laying out and then unlaying out gives the element its children
    back and the window its listeners, on a component whose element holds
    no node with the new iframe's identity and whose window does not
    already carry the message listener.  The loading indicator, switched
    on by the layout, stays on, and the unlisten handle stays set. *)
Theorem unlayout_undoes_layout
    (getIframe : AmpElement -> string -> HTMLIFrameElement)
    (getMode_test : bool) (this this' : AmpFacebook) :
  Forall (fun c => frameId c <> frameId (getIframe (element this) TYPE))
    (childNodes (element this)) ->
  Forall (fun l => l <> mkWindowListener "message" BoundHandleFacebookMessages)
    (windowListeners this) ->
  layoutCallback getIframe getMode_test this = Normal this' ->
  iframe_ (unlayoutCallback this') = None
  /\ element (unlayoutCallback this') = element this
  /\ windowListeners (unlayoutCallback this') = windowListeners this
  /\ baseCalls (unlayoutCallback this') = baseCalls this ++ [ToggleLoading true]
  /\ unlistenMessage_ (unlayoutCallback this')
     = Some (mkWindowListener "message" BoundHandleFacebookMessages).
Proof.
  intros Hnodes Hlisteners
    (iframe & -> & Hid & _)%(layout_fields getIframe getMode_test).
  assert (Hkeep : forall A (P : A -> Prop) `{forall x, Decision (P x)}
            (l : list A) (x : A),
            Forall P l -> ~ P x -> filter P (l ++ [x]) = l).
  { intros A P ? l x Hall Hx. rewrite filter_app, filter_cons_False by exact Hx.
    rewrite filter_nil, app_nil_r.
    induction Hall as [|y l Hy _ IH]; [reflexivity|].
    now rewrite filter_cons_True, IH by exact Hy. }
  unfold unlayoutCallback, removeElement, unlisten. cbn.
  rewrite !Hkeep; try assumption.
  - destruct (element this). repeat split.
  - intros Hne. now apply Hne.
  - now rewrite Hid.
  - intros Hne. now apply Hne.
Qed.

Lemma unlayout_undoes_layout_witness :
  iframe_ (unlayoutCallback laidOut) = None
  /\ element (unlayoutCallback laidOut) = element (component "post")
  /\ windowListeners (unlayoutCallback laidOut)
     = windowListeners (component "post")
  /\ baseCalls (unlayoutCallback laidOut)
     = baseCalls (component "post") ++ [ToggleLoading true]
  /\ unlistenMessage_ (unlayoutCallback laidOut)
     = Some (mkWindowListener "message" BoundHandleFacebookMessages).
Proof.
  apply (unlayout_undoes_layout frame7 true (component "post") laidOut);
    [constructor|constructor|exact laidOut_is_laid_out].
Defined.





Lemma forcedHeights_snoc (done : list BaseCall) (c : BaseCall) :
  forcedHeights (done ++ [c])
  = forcedHeights done
      ++ match c with
         | ForceChangeHeight newHeight => [newHeight]
         | ToggleLoading _ => []
         end.
Proof.
  induction done as [|[on|h] done IH]; cbn.
  - destruct c; reflexivity.
  - exact IH.
  - now rewrite IH.
Qed.

(** X15: the two channels stay apart.  Over any sequence of host calls
    that does not throw, the heights handed to [forceChangeHeight] are
    exactly the ['height'] fields of the embed-size messages received, in
    the order received: layout, unlayout and window messages force no
    height, and an embed-size message forces exactly one. *)
Theorem forced_heights_are_the_embed_sizes
    (numberToString : float -> string) (tryParseJson : JsValue -> JsValue)
    (getIframe : AmpElement -> string -> HTMLIFrameElement)
    (getMode_test : bool) (calls : list HostCall)
    (this this' : AmpFacebook) :
  hostCalls numberToString tryParseJson getIframe getMode_test this calls
  = Normal this' ->
  forcedHeights (baseCalls this')
  = forcedHeights (baseCalls this) ++ embedSizeHeights calls.
Proof.
  revert this. induction calls as [|c calls IH]; intros this; cbn [hostCalls].
  - intros [= <-]. cbn. now rewrite app_nil_r.
  - destruct (hostCall _ _ _ _ this c) as [this1|e] eqn:E1; cbn;
      [|discriminate].
    intros Hrest. rewrite (IH _ Hrest). clear IH Hrest.
    destruct c as [| |event|data]; cbn [hostCall embedSizeHeights] in *.
    + apply layout_fields in E1 as (iframe & -> & _). cbn.
      now rewrite forcedHeights_snoc, app_nil_r.
    + injection E1 as <-. unfold unlayoutCallback.
      destruct (iframe_ this); cbn; destruct (unlistenMessage_ this);
        reflexivity.
    + rewrite handle_outcome in E1. injection E1 as <-.
      destruct (_ && _); [|reflexivity].
      unfold loadingEnded. destruct getMode_test; cbn;
        now rewrite forcedHeights_snoc, app_nil_r.
    + unfold embedSizeCallback in E1.
      destruct (getProp data "height") as [h|e]; cbn in E1; [|discriminate].
      injection E1 as <-. cbn.
      now rewrite forcedHeights_snoc, <- app_assoc.
Qed.

Lemma layout_then_embed_size :
  hostCalls noNumbers parseReadyOnly frame7 true (component "post")
    [CallLayout; CallEmbedSize embedSize300]
  = Normal (forceChangeHeight laidOut (JNumber 300)).
Proof. vm_compute. reflexivity. Qed.

Lemma forced_heights_are_the_embed_sizes_witness :
  forcedHeights (baseCalls (forceChangeHeight laidOut (JNumber 300)))
  = forcedHeights (baseCalls (component "post"))
      ++ embedSizeHeights [CallLayout; CallEmbedSize embedSize300].
Proof.
  exact (forced_heights_are_the_embed_sizes noNumbers parseReadyOnly frame7
           true [CallLayout; CallEmbedSize embedSize300] (component "post")
           (forceChangeHeight laidOut (JNumber 300))
           layout_then_embed_size).
Defined.

End AmpFacebookExtra.
